(** * whois.js: hostname normalisation, WHOIS record parsing and the query loop

    A shallow embedding of [src/whois.js].  JavaScript strings are sequences
    of UTF-16 code units; they are modelled as lists of [N].  The few string
    primitives and the regular expressions the script uses are written out
    below, followed by [WhoisService] ([extractDate], [toDate],
    [parseWhoisOutput], [getWhoisRaw], [getWhoisData]), [getCleanHostname] and
    the loop of [main].

    The two platform classes the script instantiates, [URL] and [Date], are
    not part of the script: they are Section variables, and what a statement
    needs from them is a named hypothesis. *)

From Stdlib Require Import List NArith ZArith Bool Ascii String Lia.
Import ListNotations.

Local Open Scope N_scope.

(** ** JavaScript strings *)

Module JS.

Definition code_unit := N.
Definition jsstring := list code_unit.

(** An ASCII literal as a JavaScript string. *)
Definition lit (s : string) : jsstring :=
  map N_of_ascii (list_ascii_of_string s).

Definition jsstring_eqb (a b : jsstring) : bool :=
  if list_eq_dec N.eq_dec a b then true else false.

(** Truthiness of a string value that may be [null]/[undefined]:
    [if (x)] holds when [x] is a non-empty string. *)
Definition truthy (x : option jsstring) : bool :=
  match x with
  | Some (_ :: _) => true
  | _ => false
  end.

(** WhiteSpace and LineTerminator code units, the set removed by
    [String.prototype.trim]. *)
Definition isWhiteSpace (c : code_unit) : bool :=
  ((9 <=? c) && (c <=? 13))
  || (c =? 32) || (c =? 160) || (c =? 5760)
  || ((8192 <=? c) && (c <=? 8202))
  || (c =? 8232) || (c =? 8233) || (c =? 8239) || (c =? 8287)
  || (c =? 12288) || (c =? 65279).

Fixpoint trimStart (s : jsstring) : jsstring :=
  match s with
  | c :: s' => if isWhiteSpace c then trimStart s' else s
  | [] => []
  end.

Definition trimEnd (s : jsstring) : jsstring := rev (trimStart (rev s)).

Definition trim (s : jsstring) : jsstring := trimEnd (trimStart s).

(** [s.split(sep)] for a one-unit separator: never the empty array. *)
Fixpoint split (sep : code_unit) (s : jsstring) : list jsstring :=
  match s with
  | [] => [[]]
  | c :: s' =>
      if c =? sep then [] :: split sep s'
      else match split sep s' with
           | p :: ps => (c :: p) :: ps
           | [] => [[c]]
           end
  end.

Definition isUpperAscii (c : code_unit) : bool := (65 <=? c) && (c <=? 90).
Definition isLowerAscii (c : code_unit) : bool := (97 <=? c) && (c <=? 122).

(** [toLowerCase] on the ASCII range.  The script applies it to
    [URL.hostname] only, which is an ASCII serialisation. *)
Definition toLowerUnit (c : code_unit) : code_unit :=
  if isUpperAscii c then c + 32 else c.

Definition toLowerCase (s : jsstring) : jsstring := map toLowerUnit s.

(** [s.startsWith(p)] *)
Fixpoint startsWith (p s : jsstring) : bool :=
  match p, s with
  | [], _ => true
  | a :: p', b :: s' => (a =? b) && startsWith p' s'
  | _ :: _, [] => false
  end.

(** [s.substring(n)] for [n] within the string *)
Definition substring (n : nat) (s : jsstring) : jsstring := skipn n s.

End JS.

Import JS.

(** ** The regular expressions of the script

    Every pattern in [whois.js] is a sequence of one-unit atoms (a literal or
    [\d]), one of them optional in [/^https?:\/\//i], possibly anchored with
    [^] and possibly with the [i] flag. *)

Module Regex.

Inductive atom :=
| Chr (c : code_unit)
| Digit.

Inductive item :=
| One (a : atom)
| Opt (a : atom).

Record regex := {
  anchored : bool;
  ignoreCase : bool;
  items : list item
}.

Definition isDigit (c : code_unit) : bool := (48 <=? c) && (c <=? 57).

(** Canonicalisation under the [i] flag (no [u] flag): a code unit is
    compared through its upper-case form, and a unit outside ASCII never
    canonicalises to an ASCII one.  Against the ASCII literals of the script
    this is comparison up to ASCII case. *)
Definition canonicalize (c : code_unit) : code_unit :=
  if isLowerAscii c then c - 32 else c.

Definition atom_matches (ic : bool) (a : atom) (c : code_unit) : bool :=
  match a with
  | Chr p => if ic then canonicalize p =? canonicalize c else p =? c
  | Digit => isDigit c
  end.

Definition take_atom (ic : bool) (a : atom) (s : jsstring)
    (k : jsstring -> option jsstring) : option jsstring :=
  match s with
  | c :: s' => if atom_matches ic a c then option_map (cons c) (k s') else None
  | [] => None
  end.

(** Match the items at the head of [s]; the result is the matched text.
    An optional atom is greedy and backtracks. *)
Fixpoint match_here (ic : bool) (r : list item) (s : jsstring)
    : option jsstring :=
  match r with
  | [] => Some []
  | One a :: r' => take_atom ic a s (match_here ic r')
  | Opt a :: r' =>
      match take_atom ic a s (match_here ic r') with
      | Some m => Some m
      | None => match_here ic r' s
      end
  end.

(** Leftmost match at any start position. *)
Fixpoint search (ic : bool) (r : list item) (s : jsstring)
    : option jsstring :=
  match match_here ic r s with
  | Some m => Some m
  | None =>
      match s with
      | [] => None
      | _ :: s' => search ic r s'
      end
  end.

(** [s.match(re)] for a pattern without the [g] flag whose single capture
    group is the whole pattern: the result stands for [match[1]]. *)
Definition exec (re : regex) (s : jsstring) : option jsstring :=
  if anchored re then match_here (ignoreCase re) (items re) s
  else search (ignoreCase re) (items re) s.

(** [re.test(s)] *)
Definition test (re : regex) (s : jsstring) : bool :=
  match exec re s with Some _ => true | None => false end.

Definition chars (s : string) : list item := map (fun c => One (Chr c)) (lit s).

(** [/label/i] *)
Definition label (s : string) : regex :=
  {| anchored := false; ignoreCase := true; items := chars s |}.

(** [/^label/i] *)
Definition label_at_start (s : string) : regex :=
  {| anchored := true; ignoreCase := true; items := chars s |}.

Definition digits (n : nat) : list item := repeat (One Digit) n.

(** [/(\d{4}-\d{2}-\d{2})/] and [/(\d{4}\/\d{2}\/\d{2})/] *)
Definition date_with (sep : code_unit) : regex :=
  {| anchored := false; ignoreCase := false;
     items := digits 4 ++ [One (Chr sep)] ++ digits 2
              ++ [One (Chr sep)] ++ digits 2 |}.

(** [/^https?:\/\//i] *)
Definition scheme : regex :=
  {| anchored := true; ignoreCase := true;
     items := chars "http" ++ [Opt (Chr 115)] ++ chars "://" |}.

(** [str.replace(/\//g, '-')]: every unit [a] becomes [b]. *)
Definition replace_all (a b : code_unit) (s : jsstring) : jsstring :=
  map (fun c => if c =? a then b else c) s.

End Regex.

Import Regex.

Definition hyphen : code_unit := 45.
Definition slash : code_unit := 47.
Definition colon : code_unit := 58.
Definition newline : code_unit := 10.

(** ** Dates as the script handles them *)

(** The lexical shape [DDDD?DD?DD] with separator [sep]. *)
Definition is_date (sep : code_unit) (d : jsstring) : bool :=
  match d with
  | [y1; y2; y3; y4; s1; m1; m2; s2; d1; d2] =>
      isDigit y1 && isDigit y2 && isDigit y3 && isDigit y4 && (sep =? s1)
      && isDigit m1 && isDigit m2 && (sep =? s2) && isDigit d1 && isDigit d2
  | _ => false
  end.

(** A date of that shape starts at the head of [s]. *)
Definition date_at (sep : code_unit) (s : jsstring) : bool :=
  is_date sep (firstn 10 s).

(** [d] occurs in [s] as a substring. *)
Definition occurs (d s : jsstring) : Prop :=
  exists pre post, s = pre ++ d ++ post.

Definition digit_value (c : code_unit) : N := c - 48.

(** Year, month and day fields of a [YYYY-MM-DD] string. *)
Definition date_fields (s : jsstring) : option (N * N * N) :=
  match s with
  | [y1; y2; y3; y4; _; m1; m2; _; d1; d2] =>
      if is_date hyphen s then
        Some (1000 * digit_value y1 + 100 * digit_value y2
              + 10 * digit_value y3 + digit_value y4,
              10 * digit_value m1 + digit_value m2,
              10 * digit_value d1 + digit_value d2)
      else None
  | _ => None
  end.

(** A month outside 01..12 or a day outside 01..31. *)
Definition field_out_of_range (s : jsstring) : Prop :=
  exists y m d, date_fields s = Some (y, m, d)
                /\ (m < 1 \/ 12 < m \/ d < 1 \/ 31 < d).

(** ** Instances of the platform classes

    Small executable instances of [new URL(s).hostname] and of
    [new Date(s).getTime()], used to run the script's functions on concrete
    inputs.  [hostname] covers [http(s)] inputs whose host is a plain ASCII
    domain (no IDNA mapping, percent-decoding or numeric host forms);
    [Date_parse] covers the date-only form [YYYY-MM-DD], read as UTC, with
    the month in 01..12 and the day in 01..31; a day past the end of its
    month counts on into the next month, as in V8. *)

Module Platform.

Definition ends_authority (c : code_unit) : bool :=
  (c =? 47) || (c =? 92) || (c =? 63) || (c =? 35).

Definition is_slash (c : code_unit) : bool := (c =? 47) || (c =? 92).

Fixpoint skip_while (p : code_unit -> bool) (s : jsstring) : jsstring :=
  match s with
  | c :: s' => if p c then skip_while p s' else s
  | [] => []
  end.

Fixpoint take_until (p : code_unit -> bool) (s : jsstring) : jsstring :=
  match s with
  | c :: s' => if p c then [] else c :: take_until p s'
  | [] => []
  end.

(** The text after the last [@], or all of it. *)
Definition after_credentials (s : jsstring) : jsstring :=
  last (split 64 s) [].

Definition forbidden_in_domain : list code_unit :=
  [35; 37; 47; 58; 60; 62; 63; 64; 91; 92; 93; 94; 124].

Definition host_unit_ok (c : code_unit) : bool :=
  (33 <=? c) && (c <=? 126) && negb (existsb (N.eqb c) forbidden_in_domain).

Definition hostname (s : jsstring) : option jsstring :=
  match exec scheme s with
  | None => None
  | Some m =>
      let rest := skip_while is_slash (skipn (List.length m) s) in
      let authority := after_credentials (take_until ends_authority rest) in
      let host := toLowerCase (take_until (N.eqb colon) authority) in
      let port := skipn (S (List.length host)) authority in
      match host with
      | [] => None
      | _ :: _ =>
          if forallb host_unit_ok host && forallb isDigit port
          then Some host else None
      end
  end.

Local Open Scope Z_scope.

(** Day number of a civil date, counted from 1970-01-01. *)
Definition days_from_civil (y m d : Z) : Z :=
  let y' := if m <=? 2 then y - 1 else y in
  let era := y' / 400 in
  let yoe := y' - era * 400 in
  let doy := (153 * (if m <=? 2 then m + 9 else m - 3) + 2) / 5 + d - 1 in
  era * 146097 + (yoe * 365 + yoe / 4 - yoe / 100 + doy) - 719468.

Definition msPerDay : Z := 86400000.

Definition Date_parse (s : jsstring) : option Z :=
  match date_fields s with
  | Some (y, m, d) =>
      if ((1 <=? m) && (m <=? 12) && (1 <=? d) && (d <=? 31))%N
      then Some (msPerDay * days_from_civil (Z.of_N y) (Z.of_N m) (Z.of_N d))
      else None
  | None => None
  end.

End Platform.

(** ** The script *)

(** The four values [parseWhoisOutput] collects: as local variables the dates
    are strings ([D := jsstring]), in the returned object they are [Date]s. *)
Record fields (D : Type) := {
  registrantCountry : option jsstring;
  creationDate : option D;
  updatedDate : option D;
  expiryDate : option D
}.

Arguments registrantCountry {D} _.
Arguments creationDate {D} _.
Arguments updatedDate {D} _.
Arguments expiryDate {D} _.

(** What [exec(command, callback)] hands to its callback: [error.message]
    when the command failed, and the captured standard output. *)
Record exec_result := {
  exec_error : option jsstring;
  exec_stdout : jsstring
}.

(** The outcome of a lookup: [{error, data: null}] or
    [{error: null, data: {raw, parsed}}]. *)
Inductive outcome (P : Type) :=
| Failure (error : jsstring)
| Success (raw : jsstring) (parsed : P).

Arguments Failure {P} _.
Arguments Success {P} _ _.

(** What an iteration of [main] writes to the console. *)
Inductive output :=
| Leaving
| InvalidURL
| Querying (hostname : jsstring)
| ErrorShown (error : jsstring)
| DataShown (raw : jsstring) (parsed : fields Z)
| AskAgain.

Inductive loop_state := AwaitingInput | Done.

Section Script.

(** [new URL(s).hostname], [None] when the constructor throws. *)
Variable URL_hostname : jsstring -> option jsstring.

(** The time value of [new Date(s)], [None] when it is [NaN]. *)
Variable Date_parse : jsstring -> option Z.

(** The [n]-th call of [child_process.exec] on a command line. *)
Variable child_exec : nat -> jsstring -> exec_result.

(** *** WhoisService *)

Definition getWhoisRaw (n : nat) (hostname : jsstring) : jsstring + jsstring :=
  let r := child_exec n (lit "whois " ++ hostname) in
  match exec_error r with
  | Some message => inl (lit "Error al ejecutar WHOIS: " ++ message)
  | None =>
      if negb (truthy (Some (exec_stdout r)))
      then inl (lit "WHOIS no devolvi" ++ [243] ++ lit " datos.")
      else inr (exec_stdout r)
  end.

Definition extractDate (line : jsstring) : option jsstring :=
  match exec (date_with hyphen) line with
  | Some m => Some m
  | None =>
      match exec (date_with slash) line with
      | Some m => Some (replace_all slash hyphen m)
      | None => None
      end
  end.

Definition toDate (str : option jsstring) : option Z :=
  if negb (truthy str) then None
  else match str with
       | Some s => Date_parse s
       | None => None
       end.

Definition country_label (line : jsstring) : bool :=
  test (label "registrant country:") line
  || test (label_at_start "country:") line.

Definition creation_label (line : jsstring) : bool :=
  test (label "created on:") line || test (label "creation date:") line
  || test (label "registered on:") line.

Definition updated_label (line : jsstring) : bool :=
  test (label "updated on:") line || test (label "last updated on:") line
  || test (label "updated date:") line.

Definition expiry_label (line : jsstring) : bool :=
  test (label "expiration date:") line || test (label "expires on:") line
  || test (label "expiry date:") line.

(** The body of the [for] loop of [parseWhoisOutput] on one line. *)
Definition scan_line (st : fields jsstring) (line : jsstring)
    : fields jsstring :=
  let registrantCountry' :=
    if country_label line then
      let parts := map trim (split colon line) in
      if truthy (nth_error parts 1) then nth_error parts 1
      else registrantCountry st
    else registrantCountry st in
  let creationDate' :=
    if creation_label line then
      let dateStr := extractDate line in
      if truthy dateStr then dateStr else creationDate st
    else creationDate st in
  let updatedDate' :=
    if updated_label line then
      let dateStr := extractDate line in
      if truthy dateStr then dateStr else updatedDate st
    else updatedDate st in
  let expiryDate' :=
    if expiry_label line then
      let dateStr := extractDate line in
      if truthy dateStr then dateStr else expiryDate st
    else expiryDate st in
  {| registrantCountry := registrantCountry';
     creationDate := creationDate';
     updatedDate := updatedDate';
     expiryDate := expiryDate' |}.

Definition unset : fields jsstring :=
  {| registrantCountry := None; creationDate := None;
     updatedDate := None; expiryDate := None |}.

Definition lines_of (rawData : jsstring) : list jsstring :=
  map trim (split newline rawData).

(** The local variables when the loop is over. *)
Definition scan (rawData : jsstring) : fields jsstring :=
  fold_left scan_line (lines_of rawData) unset.

Definition parseWhoisOutput (rawData : jsstring) : fields Z :=
  let st := scan rawData in
  {| registrantCountry := registrantCountry st;
     creationDate := toDate (creationDate st);
     updatedDate := toDate (updatedDate st);
     expiryDate := toDate (expiryDate st) |}.

Definition getWhoisData (n : nat) (hostname : jsstring) : outcome (fields Z) :=
  match getWhoisRaw n hostname with
  | inl error => Failure error
  | inr data => Success data (parseWhoisOutput data)
  end.

(** *** getCleanHostname *)

Definition getCleanHostname (urlInput : jsstring) : option jsstring :=
  if negb (truthy (Some urlInput)) then None
  else
    let tempUrl := trim urlInput in
    let tempUrl := if negb (test scheme tempUrl)
                   then lit "http://" ++ tempUrl else tempUrl in
    match URL_hostname tempUrl with
    | Some host =>
        let hostname := toLowerCase host in
        let hostname := if startsWith (lit "www.") hostname
                        then substring 4 hostname else hostname in
        Some hostname
    | None => None
    end.

(** *** main *)

(** One turn of the [while (true)] loop on the [n]-th answer read from the
    prompt; [ask] resolves with the trimmed answer. *)
Definition iteration (n : nat) (answer : jsstring) : loop_state * list output :=
  let urlInput := trim answer in
  if negb (truthy (Some urlInput)) then (Done, [Leaving])
  else
    let hostname := getCleanHostname urlInput in
    match hostname with
    | Some (c :: h) =>
        match getWhoisData n (c :: h) with
        | Failure error =>
            (AwaitingInput, [Querying (c :: h); ErrorShown error; AskAgain])
        | Success raw parsed =>
            (AwaitingInput, [Querying (c :: h); DataShown raw parsed; AskAgain])
        end
    | _ => (AwaitingInput, [InvalidURL])
    end.

(** The loop over the answers typed so far, from the [n]-th on: the state it
    is left in and everything written. *)
Fixpoint main_loop (n : nat) (answers : list jsstring)
    : loop_state * list output :=
  match answers with
  | [] => (AwaitingInput, [])
  | answer :: rest =>
      match iteration n answer with
      | (Done, out) => (Done, out)
      | (AwaitingInput, out) =>
          let (st, out') := main_loop (S n) rest in (st, out ++ out')
      end
  end.

Definition main (answers : list jsstring) : loop_state * list output :=
  main_loop 0 answers.

End Script.

(** ** Vocabulary of the statements *)

(** The text after the first [sep] of [s], when [s] has one. *)
Fixpoint after_first (sep : code_unit) (s : jsstring) : option jsstring :=
  match s with
  | [] => None
  | c :: s' => if c =? sep then Some s' else after_first sep s'
  end.

(** The text before the first [sep] of [s], or all of [s]. *)
Fixpoint before_first (sep : code_unit) (s : jsstring) : jsstring :=
  match s with
  | [] => []
  | c :: s' => if c =? sep then [] else c :: before_first sep s'
  end.

(** The value a line assigns to each variable of [parseWhoisOutput], if it
    assigns one. *)
Definition country_value (line : jsstring) : option jsstring :=
  if country_label line then
    let parts := map trim (split colon line) in
    if truthy (nth_error parts 1) then nth_error parts 1 else None
  else None.

Definition creation_value (line : jsstring) : option jsstring :=
  if creation_label line then extractDate line else None.

Definition updated_value (line : jsstring) : option jsstring :=
  if updated_label line then extractDate line else None.

Definition expiry_value (line : jsstring) : option jsstring :=
  if expiry_label line then extractDate line else None.

(** [new] when the line assigned a value, else what was there. *)
Definition assigned {A : Type} (new old : option A) : option A :=
  match new with
  | Some v => Some v
  | None => old
  end.

(** No line of the text matches any label. *)
Definition no_labels (rawData : jsstring) : Prop :=
  forall line, In line (lines_of rawData) ->
    country_label line = false /\ creation_label line = false
    /\ updated_label line = false /\ expiry_label line = false.

Definition all_absent : fields Z :=
  {| registrantCountry := None; creationDate := None;
     updatedDate := None; expiryDate := None |}.

(** Every date string the loop stores has the shape [YYYY-MM-DD]. *)
Definition dated (x : option jsstring) : Prop :=
  forall s, x = Some s -> is_date hyphen s = true.

(** A [child_process.exec] that always succeeds with a one-line record. *)
Definition whois_always_US (n : nat) (command : jsstring) : exec_result :=
  {| exec_error := None; exec_stdout := lit "Registrant Country: US" |}.

(** No white space at either end. *)
Definition trimmed (s : jsstring) : Prop :=
  trimStart s = s /\ trimStart (rev s) = rev s.

(** The lines joined with a newline between them. *)
Fixpoint join_lines (ls : list jsstring) : jsstring :=
  match ls with
  | [] => []
  | [l] => l
  | l :: ls' => l ++ newline :: join_lines ls'
  end.

(** The same text up to the case of ASCII letters. *)
Definition same_up_to_case (a b : jsstring) : Prop :=
  map canonicalize a = map canonicalize b.

(** A pattern matched. *)
Definition matched (r : option jsstring) : bool :=
  match r with Some _ => true | None => false end.

Definition leap_year (y : N) : bool :=
  ((y mod 4 =? 0) && negb (y mod 100 =? 0)) || (y mod 400 =? 0).

Definition days_in_month (y m : N) : N :=
  if m =? 2 then (if leap_year y then 29 else 28)
  else if (m =? 4) || (m =? 6) || (m =? 9) || (m =? 11) then 30
  else 31.

(** A [YYYY-MM-DD] string that names a day of the calendar. *)
Definition valid_calendar_date (s : jsstring) : bool :=
  match date_fields s with
  | Some (y, m, d) =>
      (1 <=? m) && (m <=? 12) && (1 <=? d) && (d <=? days_in_month y m)
  | None => false
  end.

(** What [getCleanHostname] makes of the host that [URL] reports. *)
Definition lower_without_www (host : jsstring) : jsstring :=
  if startsWith (lit "www.") (toLowerCase host)
  then substring 4 (toLowerCase host) else toLowerCase host.

(** * Proofs *)

(** ** The script on concrete inputs *)

Example trim_spaces : trim (lit "  a b  ") = lit "a b".
Proof. reflexivity. Qed.

Example split_colons :
  split colon (lit "a:b:c") = [lit "a"; lit "b"; lit "c"].
Proof. reflexivity. Qed.

Example scheme_prefixes :
  test scheme (lit "HTTPS://x") = true /\ test scheme (lit "http://x") = true
  /\ test scheme (lit "ftp://x") = false /\ test scheme (lit "xhttp://") = false.
Proof. repeat split; reflexivity. Qed.

Example platform_instances :
  Platform.hostname (lit "http://user:pw@Example.com:8080/x?y#z")
  = Some (lit "example.com")
  /\ Platform.hostname (lit "http://") = None
  /\ Platform.Date_parse (lit "1997-09-15") = Some 874281600000%Z
  /\ Platform.Date_parse (lit "1970-01-01") = Some 0%Z
  /\ Platform.Date_parse (lit "2021-02-30") = Platform.Date_parse (lit "2021-03-02")
  /\ Platform.Date_parse (lit "2021-13-40") = None.
Proof. repeat split; reflexivity. Qed.

(** The record of the README's example session. *)
Example documented_record :
  parseWhoisOutput Platform.Date_parse
    (lit "   Updated Date: 2022-09-20T09:31:37Z" ++ newline ::
     lit "   Creation Date: 1997-09-15T04:00:00Z" ++ newline ::
     lit "   Registry Expiry Date: 2028-09-14T04:00:00Z" ++ newline ::
     lit "Registrant Country: US")
  = {| registrantCountry := Some (lit "US");
       creationDate := Platform.Date_parse (lit "1997-09-15");
       updatedDate := Platform.Date_parse (lit "2022-09-20");
       expiryDate := Platform.Date_parse (lit "2028-09-14") |}.
Proof. reflexivity. Qed.

Example session :
  main Platform.hostname Platform.Date_parse whois_always_US
    [lit "not a url"; lit "  "; lit "example.com"]
  = (Done, [InvalidURL; Leaving]).
Proof. reflexivity. Qed.

(** ** Regular expressions *)

Ltac case_tests :=
  repeat match goal with
         | |- context [isDigit ?c] => destruct (isDigit c); cbn
         | |- context [N.eqb ?a ?b] => destruct (N.eqb a b); cbn
         end.

Lemma match_here_date (sep : code_unit) (s : jsstring) :
  match_here false (items (date_with sep)) s
  = if date_at sep s then Some (firstn 10 s) else None.
Proof.
  unfold date_at, is_date.
  do 10 (destruct s as [|? s]; cbn; [case_tests; reflexivity|]).
  case_tests; try reflexivity.
  all: destruct s; reflexivity.
Qed.

Lemma search_none ic r s :
  search ic r s = None <-> forall i, match_here ic r (skipn i s) = None.
Proof.
  induction s as [|c s IH]; cbn.
  - destruct (match_here ic r []) eqn:E; split; intros H.
    + discriminate.
    + specialize (H 0%nat). cbn in H. congruence.
    + intros i. rewrite skipn_nil. exact E.
    + reflexivity.
  - destruct (match_here ic r (c :: s)) eqn:E; split; intros H.
    + discriminate.
    + specialize (H 0%nat). cbn in H. congruence.
    + intros [|i]; cbn; [exact E|]. apply IH, H.
    + apply IH. intros i. exact (H (S i)).
Qed.

Lemma search_leftmost ic r s i m :
  match_here ic r (skipn i s) = Some m ->
  (forall j, (j < i)%nat -> match_here ic r (skipn j s) = None) ->
  search ic r s = Some m.
Proof.
  revert s; induction i as [|i IH]; intros s Hm Hl.
  - cbn in Hm. destruct s; cbn; rewrite Hm; reflexivity.
  - destruct s as [|c s].
    + cbn in Hm. specialize (Hl 0%nat ltac:(lia)). cbn in Hl. congruence.
    + pose proof (Hl 0%nat ltac:(lia)) as H0. cbn in H0.
      cbn. rewrite H0. apply IH; [exact Hm|].
      intros j Hj. apply (Hl (S j)). lia.
Qed.

Lemma search_some ic r s m :
  search ic r s = Some m ->
  exists i, match_here ic r (skipn i s) = Some m
            /\ forall j, (j < i)%nat -> match_here ic r (skipn j s) = None.
Proof.
  induction s as [|c s IH]; cbn.
  - destruct (match_here ic r []) eqn:E; [|discriminate].
    intros H; exists 0%nat; split; [cbn; congruence|intros; lia].
  - destruct (match_here ic r (c :: s)) eqn:E.
    + intros H; exists 0%nat; split; [cbn; congruence|intros; lia].
    + intros H. destruct (IH H) as (i & Hi & Hl). exists (S i). split; [exact Hi|].
      intros [|j] Hj; cbn; [exact E|]. apply Hl. lia.
Qed.

Lemma exec_date_with sep line :
  exec (date_with sep) line = search false (items (date_with sep)) line.
Proof. reflexivity. Qed.

Lemma exec_date_none sep line :
  exec (date_with sep) line = None
  <-> forall i, date_at sep (skipn i line) = false.
Proof.
  rewrite exec_date_with, search_none. split; intros H i; specialize (H i);
    rewrite match_here_date in *; destruct (date_at sep (skipn i line));
    congruence.
Qed.

Lemma exec_date_leftmost sep line i :
  (forall j, (j < i)%nat -> date_at sep (skipn j line) = false) ->
  date_at sep (skipn i line) = true ->
  exec (date_with sep) line = Some (firstn 10 (skipn i line)).
Proof.
  intros Hl Hi. rewrite exec_date_with. apply search_leftmost with (i := i).
  - rewrite match_here_date, Hi. reflexivity.
  - intros j Hj. rewrite match_here_date, (Hl j Hj). reflexivity.
Qed.

Lemma exec_date_some sep line m :
  exec (date_with sep) line = Some m ->
  exists i, m = firstn 10 (skipn i line)
            /\ date_at sep (skipn i line) = true
            /\ forall j, (j < i)%nat -> date_at sep (skipn j line) = false.
Proof.
  rewrite exec_date_with. intros H.
  destruct (search_some _ _ _ _ H) as (i & Hi & Hl). exists i.
  rewrite match_here_date in Hi.
  destruct (date_at sep (skipn i line)) eqn:E; [|discriminate].
  repeat split; [congruence|].
  intros j Hj. specialize (Hl j Hj). rewrite match_here_date in Hl.
  destruct (date_at sep (skipn j line)); congruence.
Qed.

Lemma is_date_length sep d : is_date sep d = true -> List.length d = 10%nat.
Proof.
  unfold is_date. do 10 (destruct d as [|? d]; [discriminate|]).
  destruct d; [reflexivity|discriminate].
Qed.

Lemma occurs_date_at sep d line :
  occurs d line -> is_date sep d = true ->
  exists i, date_at sep (skipn i line) = true /\ firstn 10 (skipn i line) = d.
Proof.
  intros (pre & post & ->) Hd. exists (List.length pre).
  pose proof (is_date_length _ _ Hd) as Hlen.
  assert (firstn 10 (skipn (List.length pre) (pre ++ d ++ post)) = d) as E.
  { rewrite skipn_app, skipn_all, Nat.sub_diag. cbn [skipn app].
    rewrite <- Hlen, firstn_app, firstn_all, Nat.sub_diag.
    cbn. apply app_nil_r. }
  unfold date_at. rewrite E. auto.
Qed.

Lemma date_at_occurs i line : occurs (firstn 10 (skipn i line)) line.
Proof.
  exists (firstn i line), (skipn 10 (skipn i line)).
  rewrite (firstn_skipn 10), (firstn_skipn i). reflexivity.
Qed.

Lemma digit_not_slash c : isDigit c = true -> (c =? slash) = false.
Proof.
  unfold isDigit, slash. intros H. apply andb_prop in H as [H _].
  apply N.leb_le in H. apply N.eqb_neq. lia.
Qed.

(** The shape of a slash date and of its rewriting. *)
Lemma slash_date_rewritten m :
  is_date slash m = true ->
  exists y mo dd,
    m = y ++ slash :: mo ++ slash :: dd
    /\ List.length y = 4%nat /\ List.length mo = 2%nat /\ List.length dd = 2%nat
    /\ replace_all slash hyphen m = y ++ hyphen :: mo ++ hyphen :: dd
    /\ is_date hyphen (replace_all slash hyphen m) = true.
Proof.
  unfold is_date. do 10 (destruct m as [|? m]; [discriminate|]).
  destruct m; [|discriminate]. intros H.
  rewrite !andb_true_iff in H.
  repeat match goal with H : _ /\ _ |- _ => destruct H end.
  repeat match goal with
         | H : (slash =? _) = true |- _ => apply N.eqb_eq in H; subst
         end.
  exists [c; c0; c1; c2], [c4; c5], [c7; c8].
  cbn [app List.length replace_all map].
  repeat match goal with
         | H : isDigit ?c = true |- _ =>
             rewrite (digit_not_slash c H); rewrite H; clear H
         end.
  repeat split.
Qed.

(** ** split *)

Lemma split_not_nil sep s : split sep s <> [].
Proof.
  destruct s as [|c s]; cbn; [discriminate|].
  destruct (c =? sep); [discriminate|]. destruct (split sep s); discriminate.
Qed.

Lemma split_head sep s : nth_error (split sep s) 0 = Some (before_first sep s).
Proof.
  induction s as [|c s IH]; cbn; [reflexivity|].
  destruct (c =? sep); [reflexivity|].
  destruct (split sep s) as [|p ps]; cbn in *; [discriminate|congruence].
Qed.

Lemma split_second sep s :
  nth_error (split sep s) 1
  = option_map (before_first sep) (after_first sep s).
Proof.
  induction s as [|c s IH]; cbn; [reflexivity|].
  destruct (c =? sep); cbn; [apply split_head|].
  destruct (split sep s) as [|p ps] eqn:E; [destruct (split_not_nil _ _ E)|].
  exact IH.
Qed.

Lemma split_app sep a b :
  split sep (a ++ sep :: b) = split sep a ++ split sep b.
Proof.
  induction a as [|c a IH]; cbn.
  - rewrite N.eqb_refl. reflexivity.
  - destruct (c =? sep); [rewrite IH; reflexivity|].
    rewrite IH. destruct (split sep a) as [|p ps] eqn:E;
      [destruct (split_not_nil _ _ E)|reflexivity].
Qed.

Lemma split_no_sep sep s : ~ In sep s -> split sep s = [s].
Proof.
  induction s as [|c s IH]; cbn; [reflexivity|]. intros H.
  destruct (c =? sep) eqn:E; [apply N.eqb_eq in E; tauto|].
  rewrite IH; [reflexivity|tauto].
Qed.

Lemma before_first_no_sep sep s : ~ In sep s -> before_first sep s = s.
Proof.
  induction s as [|c s IH]; cbn; [reflexivity|]. intros H.
  destruct (c =? sep) eqn:E; [apply N.eqb_eq in E; tauto|].
  rewrite IH; [reflexivity|tauto].
Qed.

Lemma lines_of_app raw line :
  ~ In newline line -> lines_of (raw ++ newline :: line) = lines_of raw ++ [trim line].
Proof.
  intros H. unfold lines_of. rewrite split_app, map_app, (split_no_sep _ line H).
  reflexivity.
Qed.

(** ** The loop body, variable by variable *)

Lemma extractDate_is_date line d :
  extractDate line = Some d -> is_date hyphen d = true.
Proof.
  unfold extractDate.
  destruct (exec (date_with hyphen) line) as [m|] eqn:E1.
  - intros [= <-]. destruct (exec_date_some _ _ _ E1) as (i & -> & Hi & _).
    exact Hi.
  - destruct (exec (date_with slash) line) as [m|] eqn:E2; [|discriminate].
    intros [= <-]. destruct (exec_date_some _ _ _ E2) as (i & -> & Hi & _).
    destruct (slash_date_rewritten _ Hi) as (? & ? & ? & ? & ? & ? & ? & ? & H).
    exact H.
Qed.

Lemma is_date_truthy sep d : is_date sep d = true -> truthy (Some d) = true.
Proof. destruct d; [discriminate|reflexivity]. Qed.

Lemma truthy_extractDate line :
  (if truthy (extractDate line) then extractDate line else None)
  = extractDate line.
Proof.
  destruct (extractDate line) as [d|] eqn:E; [|reflexivity].
  rewrite (is_date_truthy _ _ (extractDate_is_date _ _ E)). reflexivity.
Qed.

Lemma guarded_assignment (v old : option jsstring) :
  (if truthy v then v else old)
  = assigned (if truthy v then v else None) old.
Proof. destruct v as [[|c s]|]; reflexivity. Qed.

Lemma scan_line_assigned st line :
  scan_line st line =
  {| registrantCountry := assigned (country_value line) (registrantCountry st);
     creationDate := assigned (creation_value line) (creationDate st);
     updatedDate := assigned (updated_value line) (updatedDate st);
     expiryDate := assigned (expiry_value line) (expiryDate st) |}.
Proof.
  unfold scan_line, country_value, creation_value, updated_value, expiry_value.
  f_equal.
  - destruct (country_label line); [apply guarded_assignment|reflexivity].
  - destruct (creation_label line); [|reflexivity].
    rewrite guarded_assignment, truthy_extractDate. reflexivity.
  - destruct (updated_label line); [|reflexivity].
    rewrite guarded_assignment, truthy_extractDate. reflexivity.
  - destruct (expiry_label line); [|reflexivity].
    rewrite guarded_assignment, truthy_extractDate. reflexivity.
Qed.

Lemma country_value_second_piece line :
  country_value line =
  if country_label line then
    match after_first colon line with
    | Some rest =>
        if truthy (Some (trim (before_first colon rest)))
        then Some (trim (before_first colon rest)) else None
    | None => None
    end
  else None.
Proof.
  unfold country_value. destruct (country_label line); [|reflexivity].
  cbv zeta. rewrite nth_error_map, split_second.
  destruct (after_first colon line); reflexivity.
Qed.

Lemma scan_app raw line :
  ~ In newline line ->
  scan (raw ++ newline :: line) = scan_line (scan raw) (trim line).
Proof.
  intros H. unfold scan. rewrite (lines_of_app _ _ H), fold_left_app.
  reflexivity.
Qed.

Lemma no_date_occurrence sep line :
  exec (date_with sep) line = None ->
  forall d, occurs d line -> is_date sep d = false.
Proof.
  intros H d Hd. destruct (is_date sep d) eqn:E; [|reflexivity].
  destruct (occurs_date_at _ _ _ Hd E) as (i & Hi & _).
  rewrite (proj1 (exec_date_none _ _) H i) in Hi. discriminate.
Qed.

Lemma date_occurrence_found sep line d :
  occurs d line -> is_date sep d = true ->
  exists m, exec (date_with sep) line = Some m
            /\ occurs m line /\ is_date sep m = true.
Proof.
  intros Hd E. destruct (exec (date_with sep) line) as [m|] eqn:Hx.
  - exists m. destruct (exec_date_some _ _ _ Hx) as (i & -> & Hi & _).
    repeat split; [apply date_at_occurs|exact Hi].
  - rewrite (no_date_occurrence _ _ Hx d Hd) in E. discriminate.
Qed.

(** ** extractDate *)

(** C1: [extractDate] returns a [YYYY-MM-DD] substring of the line verbatim
    when the line has one; else, when the line has a [YYYY/MM/DD] substring,
    it returns one with both [/] replaced by [-]; else it returns no date.
    On ["Creation Date: 2020/05/01 ..."] the result is ["2020-05-01"], on
    ["created on: 1997-09-15"] it is ["1997-09-15"]. *)
Theorem extractDate_three_cases :
  (forall line,
      ((exists d, occurs d line /\ is_date hyphen d = true) ->
       exists d, extractDate line = Some d
                 /\ occurs d line /\ is_date hyphen d = true)
      /\ ((forall d, occurs d line -> is_date hyphen d = false) ->
          (exists d, occurs d line /\ is_date slash d = true) ->
          exists y mo dd,
            occurs (y ++ slash :: mo ++ slash :: dd) line
            /\ is_date slash (y ++ slash :: mo ++ slash :: dd) = true
            /\ extractDate line = Some (y ++ hyphen :: mo ++ hyphen :: dd))
      /\ ((forall d, occurs d line -> is_date hyphen d = false) ->
          (forall d, occurs d line -> is_date slash d = false) ->
          extractDate line = None))
  /\ extractDate (lit "Creation Date: 2020/05/01 ...") = Some (lit "2020-05-01")
  /\ extractDate (lit "created on: 1997-09-15") = Some (lit "1997-09-15").
Proof.
  split; [|split; reflexivity].
  intros line. unfold extractDate. repeat split.
  - intros (d & Hd & E).
    destruct (date_occurrence_found _ _ _ Hd E) as (m & -> & Hm & Em).
    exists m. auto.
  - intros Hno (d & Hd & E).
    destruct (exec (date_with hyphen) line) as [m|] eqn:Hx.
    + destruct (exec_date_some _ _ _ Hx) as (i & -> & Hi & _).
      unfold date_at in Hi. rewrite (Hno _ (date_at_occurs i line)) in Hi.
      discriminate.
    + destruct (date_occurrence_found _ _ _ Hd E) as (m & -> & Hm & Em).
      destruct (slash_date_rewritten _ Em)
        as (y & mo & dd & -> & _ & _ & _ & -> & _).
      exists y, mo, dd. auto.
  - intros Hh Hs.
    destruct (exec (date_with hyphen) line) as [m|] eqn:Hx.
    + destruct (exec_date_some _ _ _ Hx) as (i & -> & Hi & _).
      unfold date_at in Hi. rewrite (Hh _ (date_at_occurs i line)) in Hi.
      discriminate.
    + destruct (exec (date_with slash) line) as [m|] eqn:Hy; [|reflexivity].
      destruct (exec_date_some _ _ _ Hy) as (i & -> & Hi & _).
      unfold date_at in Hi. rewrite (Hs _ (date_at_occurs i line)) in Hi.
      discriminate.
Qed.

Lemma extractDate_three_cases_witness :
  exists y mo dd,
    occurs (y ++ slash :: mo ++ slash :: dd) (lit "Registered on: 2011/02/03")
    /\ is_date slash (y ++ slash :: mo ++ slash :: dd) = true
    /\ extractDate (lit "Registered on: 2011/02/03")
       = Some (y ++ hyphen :: mo ++ hyphen :: dd).
Proof.
  apply (proj1 (proj2 (proj1 extractDate_three_cases
                         (lit "Registered on: 2011/02/03")))).
  - apply no_date_occurrence. reflexivity.
  - exists (lit "2011/02/03"). split; [|reflexivity].
    exists (lit "Registered on: "), []. reflexivity.
Defined.

(** C10: when the line has several candidate dates, [extractDate] returns
    the leftmost [YYYY-MM-DD] substring whenever there is one, wherever the
    [YYYY/MM/DD] substrings are; the leftmost [YYYY/MM/DD] substring is used
    only when the line has no hyphenated one. *)
Theorem extractDate_leftmost_hyphenated_first :
  (forall line i,
      ((forall j, (j < i)%nat -> date_at hyphen (skipn j line) = false) ->
       date_at hyphen (skipn i line) = true ->
       extractDate line = Some (firstn 10 (skipn i line)))
      /\ ((forall k, date_at hyphen (skipn k line) = false) ->
          (forall j, (j < i)%nat -> date_at slash (skipn j line) = false) ->
          date_at slash (skipn i line) = true ->
          extractDate line
          = Some (replace_all slash hyphen (firstn 10 (skipn i line)))))
  /\ extractDate (lit "Creation Date: 2020/05/01 updated 2021-06-02")
     = Some (lit "2021-06-02").
Proof.
  split; [|reflexivity]. intros line i. unfold extractDate. split.
  - intros Hl Hi. rewrite (exec_date_leftmost _ _ _ Hl Hi). reflexivity.
  - intros Hno Hl Hi. rewrite (proj2 (exec_date_none _ _) Hno).
    rewrite (exec_date_leftmost _ _ _ Hl Hi). reflexivity.
Qed.

Lemma extractDate_leftmost_hyphenated_first_witness :
  extractDate (lit "2020/05/01 2021-06-02 2022-07-03") = Some (lit "2021-06-02").
Proof.
  apply (proj1 (proj1 extractDate_leftmost_hyphenated_first
                  (lit "2020/05/01 2021-06-02 2022-07-03") 11%nat)).
  - intros j Hj. do 11 (destruct j as [|j]; [reflexivity|]). lia.
  - reflexivity.
Defined.

(** ** Labels contain a colon *)

Lemma canonicalize_colon c : canonicalize colon = canonicalize c -> c = colon.
Proof.
  unfold canonicalize, isLowerAscii, colon. cbn.
  destruct ((97 <=? c) && (c <=? 122)) eqn:E; [|auto].
  apply andb_prop in E as [E _]. apply N.leb_le in E. lia.
Qed.

Lemma canonicalize_slash c : canonicalize slash = canonicalize c -> c = slash.
Proof.
  unfold canonicalize, isLowerAscii, slash. cbn.
  destruct ((97 <=? c) && (c <=? 122)) eqn:E; [|auto].
  apply andb_prop in E as [E _]. apply N.leb_le in E. lia.
Qed.

(** A match of a pattern that ends with the literal [c0] shows that the
    text has a [c0]. *)
Lemma match_here_final_literal c0 r s m :
  (forall c, canonicalize c0 = canonicalize c -> c = c0) ->
  match_here true (r ++ [One (Chr c0)]) s = Some m -> In c0 s.
Proof.
  intros Hc. revert s m. induction r as [|[a|a] r IH]; intros s m; cbn.
  - destruct s as [|c s]; cbn; [discriminate|].
    destruct (canonicalize c0 =? canonicalize c) eqn:E; [|discriminate].
    apply N.eqb_eq, Hc in E. auto.
  - destruct s as [|c s]; cbn; [discriminate|].
    destruct (atom_matches true a c); [|discriminate].
    destruct (match_here true (r ++ [One (Chr c0)]) s) eqn:E; [|discriminate].
    intros _. right. exact (IH _ _ E).
  - destruct s as [|c s]; cbn.
    + intros H. destruct (IH _ _ H).
    + destruct (atom_matches true a c).
      * destruct (match_here true (r ++ [One (Chr c0)]) s) eqn:E; cbn.
        -- intros _. right. exact (IH _ _ E).
        -- apply IH.
      * apply IH.
Qed.

Lemma search_final_literal c0 r s m :
  (forall c, canonicalize c0 = canonicalize c -> c = c0) ->
  search true (r ++ [One (Chr c0)]) s = Some m -> In c0 s.
Proof.
  intros Hc H. destruct (search_some _ _ _ _ H) as (i & Hi & _).
  apply match_here_final_literal in Hi; [|exact Hc].
  rewrite <- (firstn_skipn i s). apply in_or_app. auto.
Qed.

Lemma in_after_first sep s : In sep s -> exists rest, after_first sep s = Some rest.
Proof.
  induction s as [|c s IH]; cbn; [tauto|]. intros [->|H].
  - rewrite N.eqb_refl. eauto.
  - destruct (c =? sep); eauto.
Qed.

Lemma country_label_colon line :
  country_label line = true -> exists rest, after_first colon line = Some rest.
Proof.
  unfold country_label, test. intros H. apply in_after_first.
  apply orb_prop in H as [H|H].
  - destruct (exec (label "registrant country:") line) as [m|] eqn:E;
      [|discriminate].
    exact (search_final_literal colon (chars "registrant country") line m
             canonicalize_colon E).
  - destruct (exec (label_at_start "country:") line) as [m|] eqn:E;
      [|discriminate].
    exact (match_here_final_literal colon (chars "country") line m
             canonicalize_colon E).
Qed.

(** ** parseWhoisOutput *)

Lemma fold_scan_keeps_country lines st :
  (forall line, In line lines -> country_value line = None) ->
  registrantCountry (fold_left scan_line lines st) = registrantCountry st.
Proof.
  revert st. induction lines as [|l lines IH]; intros st H; cbn; [reflexivity|].
  rewrite IH by (intros line Hin; apply H; right; exact Hin).
  rewrite scan_line_assigned. cbn. rewrite (H l (or_introl eq_refl)).
  reflexivity.
Qed.




(** C4 (amended): a line matching a country label has a colon, and the
    value taken from it is the text between its first colon and the next
    one (or the end of the line), trimmed, taken only if non-empty; when
    nothing after the first colon is a colon, that is all the text after
    the first colon. *)
Theorem country_value_between_first_two_colons st line :
  country_label line = true ->
  exists rest,
    after_first colon line = Some rest
    /\ registrantCountry (scan_line st line)
       = (if truthy (Some (trim (before_first colon rest)))
          then Some (trim (before_first colon rest))
          else registrantCountry st)
    /\ (~ In colon rest -> before_first colon rest = rest).
Proof.
  intros Hl. destruct (country_label_colon _ Hl) as (rest & Hr).
  exists rest. repeat split; [exact Hr| |apply before_first_no_sep].
  rewrite scan_line_assigned. cbn.
  rewrite country_value_second_piece, Hl, Hr.
  destruct (trim (before_first colon rest)); reflexivity.
Qed.

Lemma country_value_between_first_two_colons_witness :
  exists rest,
    after_first colon (lit "Country: US: extra") = Some rest
    /\ registrantCountry (scan_line unset (lit "Country: US: extra"))
       = (if truthy (Some (trim (before_first colon rest)))
          then Some (trim (before_first colon rest))
          else registrantCountry unset)
    /\ (~ In colon rest -> before_first colon rest = rest).
Proof.
  apply (country_value_between_first_two_colons unset
           (lit "Country: US: extra")).
  reflexivity.
Defined.

(** C4 as stated fails: the text after a second colon is dropped. *)
Lemma country_value_stops_at_second_colon :
  country_label (lit "Country: US: extra") = true
  /\ option_map trim (after_first colon (lit "Country: US: extra"))
     = Some (lit "US: extra")
  /\ registrantCountry (scan_line unset (lit "Country: US: extra"))
     = Some (lit "US").
Proof. repeat split; reflexivity. Qed.

Lemma scan_line_no_label st line :
  country_label line = false -> creation_label line = false ->
  updated_label line = false -> expiry_label line = false ->
  scan_line st line = st.
Proof.
  intros H1 H2 H3 H4. unfold scan_line. rewrite H1, H2, H3, H4.
  destruct st; reflexivity.
Qed.

Lemma fold_scan_no_label lines st :
  (forall line, In line lines ->
     country_label line = false /\ creation_label line = false
     /\ updated_label line = false /\ expiry_label line = false) ->
  fold_left scan_line lines st = st.
Proof.
  revert st. induction lines as [|l lines IH]; intros st H; cbn; [reflexivity|].
  destruct (H l (or_introl eq_refl)) as (H1 & H2 & H3 & H4).
  rewrite (scan_line_no_label _ _ H1 H2 H3 H4). apply IH.
  intros line Hin. apply H. right. exact Hin.
Qed.

(** C7: [parseWhoisOutput] is a total function of the raw text: it has no
    failing outcome and returns a record for every input; on a text none of
    whose lines matches a label, all four fields of the record are absent. *)
Theorem parseWhoisOutput_total_and_absent_without_labels
    (Date_parse : jsstring -> option Z) (raw : jsstring) :
  (exists record : fields Z, parseWhoisOutput Date_parse raw = record)
  /\ (no_labels raw -> parseWhoisOutput Date_parse raw = all_absent).
Proof.
  split; [eexists; reflexivity|]. intros H.
  unfold parseWhoisOutput, scan. rewrite (fold_scan_no_label _ _ H).
  reflexivity.
Qed.

Lemma no_labels_example :
  no_labels (lit "No match for domain" ++ newline :: lit "  try again: later ").
Proof.
  intros line H. cbv in H.
  repeat (destruct H as [<-|H]; [repeat split; reflexivity|]). destruct H.
Qed.

Lemma parseWhoisOutput_total_and_absent_without_labels_witness :
  parseWhoisOutput Platform.Date_parse
    (lit "No match for domain" ++ newline :: lit "  try again: later ")
  = all_absent.
Proof.
  apply (proj2 (parseWhoisOutput_total_and_absent_without_labels
                  Platform.Date_parse _)).
  exact no_labels_example.
Defined.

(** C9: a line that yields no usable value never clears a field.  A line
    without a recognisable date leaves the three date variables as they
    were, and a line whose text between the first colon and the next is
    empty after trimming leaves the country as it was, whether or not the
    line matches the label; no line turns a set variable into an unset one;
    appending such a line to the raw text leaves the parsed field
    unchanged. *)
Theorem line_without_value_keeps_field :
  (forall st line,
      extractDate line = None ->
      creationDate (scan_line st line) = creationDate st
      /\ updatedDate (scan_line st line) = updatedDate st
      /\ expiryDate (scan_line st line) = expiryDate st)
  /\ (forall st line rest,
         after_first colon line = Some rest ->
         trim (before_first colon rest) = [] ->
         registrantCountry (scan_line st line) = registrantCountry st)
  /\ (forall st line,
         (registrantCountry st <> None ->
          registrantCountry (scan_line st line) <> None)
         /\ (creationDate st <> None -> creationDate (scan_line st line) <> None)
         /\ (updatedDate st <> None -> updatedDate (scan_line st line) <> None)
         /\ (expiryDate st <> None -> expiryDate (scan_line st line) <> None))
  /\ (forall Date_parse raw line,
         ~ In newline line ->
         (extractDate (trim line) = None ->
          creationDate (parseWhoisOutput Date_parse (raw ++ newline :: line))
          = creationDate (parseWhoisOutput Date_parse raw)
          /\ updatedDate (parseWhoisOutput Date_parse (raw ++ newline :: line))
             = updatedDate (parseWhoisOutput Date_parse raw)
          /\ expiryDate (parseWhoisOutput Date_parse (raw ++ newline :: line))
             = expiryDate (parseWhoisOutput Date_parse raw))
         /\ (forall rest,
                after_first colon (trim line) = Some rest ->
                trim (before_first colon rest) = [] ->
                registrantCountry
                  (parseWhoisOutput Date_parse (raw ++ newline :: line))
                = registrantCountry (parseWhoisOutput Date_parse raw))).
Proof.
  assert (Hdates : forall st line, extractDate line = None ->
            creationDate (scan_line st line) = creationDate st
            /\ updatedDate (scan_line st line) = updatedDate st
            /\ expiryDate (scan_line st line) = expiryDate st).
  { intros st line H. rewrite scan_line_assigned. cbn.
    unfold creation_value, updated_value, expiry_value. rewrite H.
    destruct (creation_label line), (updated_label line), (expiry_label line);
      repeat split. }
  assert (Hcountry : forall st line rest,
            after_first colon line = Some rest ->
            trim (before_first colon rest) = [] ->
            registrantCountry (scan_line st line) = registrantCountry st).
  { intros st line rest Hr Hv. rewrite scan_line_assigned. cbn.
    rewrite country_value_second_piece, Hr, Hv.
    destruct (country_label line); reflexivity. }
  split; [exact Hdates|]. split; [exact Hcountry|]. split.
  - intros st line. rewrite scan_line_assigned. cbn. unfold assigned.
    repeat split; intros H;
      match goal with
      | |- match ?v with _ => _ end <> None => destruct v
      end; congruence.
  - intros D raw line Hn. unfold parseWhoisOutput. cbn.
    rewrite (scan_app _ _ Hn). split.
    + intros H. destruct (Hdates (scan raw) _ H) as (-> & -> & ->).
      repeat split.
    + intros rest Hr Hv. exact (Hcountry _ _ _ Hr Hv).
Qed.

Lemma line_without_value_keeps_field_witness :
  creationDate
    (parseWhoisOutput Platform.Date_parse
       (lit "Creation Date: 1997-09-15" ++ newline :: lit "Creation Date: n/a"))
  = creationDate
      (parseWhoisOutput Platform.Date_parse (lit "Creation Date: 1997-09-15")).
Proof.
  refine (proj1 (proj1 (proj2 (proj2 (proj2 line_without_value_keeps_field))
                          Platform.Date_parse (lit "Creation Date: 1997-09-15")
                          (lit "Creation Date: n/a") _) _)).
  - cbv. intuition discriminate.
  - reflexivity.
Defined.

Lemma assigned_dated v old :
  dated v -> dated old -> dated (assigned v old).
Proof. destruct v; cbn; auto. Qed.

Lemma date_value_dated (b : bool) line :
  dated (if b then extractDate line else None).
Proof.
  destruct b; intros s H; [exact (extractDate_is_date _ _ H)|discriminate].
Qed.

Lemma fold_scan_dated lines st :
  dated (creationDate st) /\ dated (updatedDate st) /\ dated (expiryDate st) ->
  let st' := fold_left scan_line lines st in
  dated (creationDate st') /\ dated (updatedDate st') /\ dated (expiryDate st').
Proof.
  revert st. induction lines as [|l lines IH]; intros st H; cbn; [exact H|].
  apply IH. rewrite scan_line_assigned. cbn. destruct H as (H1 & H2 & H3).
  repeat split; apply assigned_dated; auto; apply date_value_dated.
Qed.

Lemma scan_dated raw :
  dated (creationDate (scan raw)) /\ dated (updatedDate (scan raw))
  /\ dated (expiryDate (scan raw)).
Proof. apply fold_scan_dated. repeat split; intros s H; discriminate. Qed.

Lemma Platform_Date_parse_range s :
  field_out_of_range s -> Platform.Date_parse s = None.
Proof.
  intros (y & m & d & E & H). unfold Platform.Date_parse. rewrite E.
  destruct ((1 <=? m) && (m <=? 12) && (1 <=? d) && (d <=? 31)) eqn:B;
    [|reflexivity].
  rewrite !andb_true_iff, !N.leb_le in B. lia.
Qed.

Lemma days_in_month_bound y m : days_in_month y m <= 31.
Proof.
  unfold days_in_month.
  destruct (m =? 2); [destruct (leap_year y); lia|].
  destruct ((m =? 4) || (m =? 6) || (m =? 9) || (m =? 11)); lia.
Qed.

Lemma out_of_range_not_valid s :
  field_out_of_range s -> valid_calendar_date s = false.
Proof.
  intros (y & m & d & E & H). unfold valid_calendar_date. rewrite E.
  pose proof (days_in_month_bound y m) as B.
  destruct ((1 <=? m) && (m <=? 12) && (1 <=? d) && (d <=? days_in_month y m))
    eqn:V; [|reflexivity].
  rewrite !andb_true_iff, !N.leb_le in V. lia.
Qed.

Section Date_assumption.

Variable Date_parse : jsstring -> option Z.

(** [Date] rejects a date-only string whose month is not 01..12 or whose day
    is not 01..31. *)
Hypothesis Date_rejects_out_of_range :
  forall s, field_out_of_range s -> Date_parse s = None.

Lemma toDate_out_of_range s :
  field_out_of_range s -> toDate Date_parse (Some s) = None.
Proof.
  intros H. unfold toDate. destruct s as [|c s]; [reflexivity|].
  cbn. apply Date_rejects_out_of_range, H.
Qed.


End Date_assumption.



(** ** getCleanHostname and main *)

Lemma toLowerUnit_not_upper c : isUpperAscii (toLowerUnit c) = false.
Proof.
  unfold toLowerUnit. destruct (isUpperAscii c) eqn:E; [|exact E].
  unfold isUpperAscii in *. apply andb_prop in E as [E1 E2].
  apply N.leb_le in E1. apply andb_false_iff. right. apply N.leb_gt. lia.
Qed.

Lemma toLowerUnit_slash c : toLowerUnit c = slash -> c = slash.
Proof.
  unfold toLowerUnit, isUpperAscii, slash.
  destruct ((65 <=? c) && (c <=? 90)) eqn:E; [|auto].
  apply andb_prop in E as [E _]. apply N.leb_le in E. lia.
Qed.

Lemma in_skipn {A} n (l : list A) x : In x (skipn n l) -> In x l.
Proof.
  intros H. rewrite <- (firstn_skipn n l). apply in_or_app. auto.
Qed.

Lemma startsWith_app p q s :
  startsWith (p ++ q) s
  = startsWith p s && startsWith q (skipn (List.length p) s).
Proof.
  revert s. induction p as [|a p IH]; intros s; cbn; [reflexivity|].
  destruct s as [|b s]; [reflexivity|].
  rewrite IH. apply andb_assoc.
Qed.

Lemma no_slash_no_scheme h : ~ In slash h -> test scheme h = false.
Proof.
  intros H. unfold test.
  destruct (exec scheme h) as [m|] eqn:E; [|reflexivity].
  destruct H.
  exact (match_here_final_literal slash
           (chars "http" ++ [Opt (Chr 115)] ++ chars ":/") h m
           canonicalize_slash E).
Qed.

Lemma Platform_hostname_no_slash s h :
  Platform.hostname s = Some h -> ~ In slash h.
Proof.
  unfold Platform.hostname. destruct (exec scheme s); [|discriminate].
  cbv zeta.
  match goal with |- context [toLowerCase ?x] => generalize (toLowerCase x) end.
  intros host. destruct host as [|c host]; [discriminate|].
  match goal with |- context [forallb isDigit ?x] => generalize (forallb isDigit x) end.
  intros b. destruct (forallb Platform.host_unit_ok (c :: host)) eqn:E;
    [|discriminate].
  destruct b; [|discriminate]. intros [= <-] Hin.
  rewrite forallb_forall in E. specialize (E _ Hin). discriminate.
Qed.

Section URL_assumptions.

Variable URL_hostname : jsstring -> option jsstring.
Variable Date_parse : jsstring -> option Z.
Variable child_exec : nat -> jsstring -> exec_result.

(** What the statements below take from the [URL] class. *)
Hypothesis URL_rejects_empty_host :
  URL_hostname (lit "http://") = None.
Hypothesis URL_hostname_no_slash :
  forall s h, URL_hostname s = Some h -> ~ In slash h.

(** C5 (amended): a hostname returned by [getCleanHostname] has no
    upper-case letter and no scheme prefix, and is the lower-cased host that
    [URL] reports for the trimmed input (with ["http://"] put in front when
    it has no scheme), with one leading ["www."] removed when it has one; so
    it begins with ["www."] exactly when that host began with
    ["www.www."]. *)
Theorem getCleanHostname_strips_one_www input h :
  getCleanHostname URL_hostname input = Some h ->
  (forall c, In c h -> isUpperAscii c = false)
  /\ test scheme h = false
  /\ input <> []
  /\ exists host,
       URL_hostname (if test scheme (trim input) then trim input
                     else lit "http://" ++ trim input) = Some host
       /\ h = (if startsWith (lit "www.") (toLowerCase host)
               then substring 4 (toLowerCase host) else toLowerCase host)
       /\ (startsWith (lit "www.") h = true
           <-> startsWith (lit "www.www.") (toLowerCase host) = true).
Proof.
  unfold getCleanHostname. destruct input as [|u0 input']; [discriminate|].
  set (input := u0 :: input'). cbn [truthy negb]. cbv zeta.
  replace (if negb (test scheme (trim input))
           then lit "http://" ++ trim input else trim input)
    with (if test scheme (trim input) then trim input
          else lit "http://" ++ trim input)
    by (destruct (test scheme (trim input)); reflexivity).
  match goal with |- context [URL_hostname ?u] => set (url := u) end.
  destruct (URL_hostname url) as [host|] eqn:E; [|discriminate].
  assert (Hlow : forall c, In c (toLowerCase host) -> isUpperAscii c = false).
  { intros c Hc. apply in_map_iff in Hc as (x & <- & _).
    apply toLowerUnit_not_upper. }
  assert (Hsl : ~ In slash (toLowerCase host)).
  { intros Hc. apply in_map_iff in Hc as (x & Hx & Hin).
    apply toLowerUnit_slash in Hx. subst x.
    exact (URL_hostname_no_slash _ _ E Hin). }
  assert (Hww : startsWith (lit "www.www.") (toLowerCase host)
                = startsWith (lit "www.") (toLowerCase host)
                  && startsWith (lit "www.") (substring 4 (toLowerCase host))).
  { exact (startsWith_app (lit "www.") (lit "www.") _). }
  revert Hww. unfold substring.
  destruct (startsWith (lit "www.") (toLowerCase host)) eqn:W;
    intros Hww [= <-].
  - split; [|split; [|split]].
    + intros c Hc. apply Hlow. exact (in_skipn 4 _ _ Hc).
    + apply no_slash_no_scheme. intros Hc. apply Hsl. exact (in_skipn 4 _ _ Hc).
    + discriminate.
    + exists host. rewrite Hww, W. cbn [andb]. repeat split; auto.
  - split; [|split; [|split]].
    + exact Hlow.
    + apply no_slash_no_scheme, Hsl.
    + discriminate.
    + exists host. rewrite Hww, W. cbn [andb]. repeat split; auto.
Qed.

Lemma iteration_state n answer :
  fst (iteration URL_hostname Date_parse child_exec n answer)
  = match trim answer with [] => Done | _ :: _ => AwaitingInput end.
Proof.
  unfold iteration. cbv zeta. destruct (trim answer) as [|c s]; [reflexivity|].
  cbn [truthy negb].
  destruct (getCleanHostname URL_hostname (c :: s)) as [[|c' h]|];
    try reflexivity.
  destruct (getWhoisData Date_parse child_exec n (c' :: h)); reflexivity.
Qed.

Lemma main_loop_done n answers :
  fst (main_loop URL_hostname Date_parse child_exec n answers) = Done
  <-> exists answer, In answer answers /\ trim answer = [].
Proof.
  revert n. induction answers as [|a rest IH]; intros n; cbn [main_loop].
  - split; [discriminate|]. intros (x & [] & _).
  - pose proof (iteration_state n a) as Hs.
    destruct (iteration URL_hostname Date_parse child_exec n a) as [st out].
    cbn [fst] in Hs. subst st. destruct (trim a) eqn:T.
    + split; [|reflexivity]. intros _. exists a. split; [left; reflexivity|exact T].
    + specialize (IH (S n)).
      destruct (main_loop URL_hostname Date_parse child_exec (S n) rest)
        as [st' out'].
      cbn [fst] in *. rewrite IH. split.
      * intros (x & Hx & Tx). exists x. split; [right; exact Hx|exact Tx].
      * intros (x & [<-|Hx] & Tx); [congruence|]. exists x. auto.
Qed.

(** C8: on an answer whose trimmed form is empty, [getCleanHostname]
    returns [null] and the loop goes to [Done]; on any other answer the
    loop is back in [AwaitingInput], whatever the normaliser and the lookup
    return; so a session is over exactly when one of its answers was
    empty after trimming. *)
Theorem empty_answer_is_the_only_exit :
  (forall answer,
      trim answer = [] -> getCleanHostname URL_hostname answer = None)
  /\ (forall n answer,
         trim answer = [] ->
         fst (iteration URL_hostname Date_parse child_exec n answer) = Done)
  /\ (forall n answer,
         trim answer <> [] ->
         fst (iteration URL_hostname Date_parse child_exec n answer)
         = AwaitingInput)
  /\ (forall answers,
         fst (main URL_hostname Date_parse child_exec answers) = Done
         <-> exists answer, In answer answers /\ trim answer = []).
Proof.
  split; [|split; [|split]].
  - intros answer T. unfold getCleanHostname.
    destruct answer as [|c s]; [reflexivity|]. cbn [truthy negb]. cbv zeta.
    rewrite T.
    replace (URL_hostname _) with (URL_hostname (lit "http://"))
      by reflexivity.
    rewrite URL_rejects_empty_host. reflexivity.
  - intros n answer T. rewrite iteration_state, T. reflexivity.
  - intros n answer T. rewrite iteration_state.
    destruct (trim answer); [congruence|reflexivity].
  - intros answers. apply main_loop_done.
Qed.

End URL_assumptions.

Lemma getCleanHostname_strips_one_www_witness :
  test scheme (lit "www.example.com") = false
  /\ exists host,
       Platform.hostname (lit "HTTP://WWW.www.Example.COM/a/b") = Some host
       /\ lit "www.example.com"
          = (if startsWith (lit "www.") (toLowerCase host)
             then substring 4 (toLowerCase host) else toLowerCase host)
       /\ (startsWith (lit "www.") (lit "www.example.com") = true
           <-> startsWith (lit "www.www.") (toLowerCase host) = true).
Proof.
  destruct (getCleanHostname_strips_one_www Platform.hostname
              Platform_hostname_no_slash
              (lit " HTTP://WWW.www.Example.COM/a/b ")
              (lit "www.example.com") eq_refl) as (_ & H1 & _ & H2).
  exact (conj H1 H2).
Defined.

(** C5 as stated fails: of two leading ["www."] labels one is left. *)
Lemma repeated_www_keeps_one :
  getCleanHostname Platform.hostname (lit "www.www.example.com")
  = Some (lit "www.example.com")
  /\ startsWith (lit "www.") (lit "www.example.com") = true.
Proof. split; reflexivity. Qed.

Lemma empty_answer_is_the_only_exit_witness :
  getCleanHostname Platform.hostname (lit "   ") = None
  /\ fst (iteration Platform.hostname Platform.Date_parse whois_always_US
            0 (lit "   ")) = Done
  /\ fst (iteration Platform.hostname Platform.Date_parse whois_always_US
            0 (lit "example.com")) = AwaitingInput.
Proof.
  destruct (empty_answer_is_the_only_exit Platform.hostname
              Platform.Date_parse whois_always_US eq_refl)
    as (H1 & H2 & H3 & _).
  split; [apply H1; reflexivity|].
  split; [apply H2; reflexivity|apply H3; discriminate].
Defined.

(** * Further properties of the script *)

(** ** trim *)

Lemma trimStart_app_ws p s :
  forallb isWhiteSpace p = true -> trimStart (p ++ s) = trimStart s.
Proof.
  induction p as [|c p IH]; cbn; [reflexivity|]. intros H.
  apply andb_prop in H as [Hc Hp]. rewrite Hc. exact (IH Hp).
Qed.

Lemma trimStart_all_ws s :
  trimStart s = [] <-> forallb isWhiteSpace s = true.
Proof.
  induction s as [|c s IH]; cbn; [tauto|].
  destruct (isWhiteSpace c); cbn; [exact IH|]. split; discriminate.
Qed.

Lemma trimStart_split s :
  exists p, s = p ++ trimStart s /\ forallb isWhiteSpace p = true.
Proof.
  induction s as [|c s (p & E & Hp)]; cbn; [exists []; auto|].
  destruct (isWhiteSpace c) eqn:Hc.
  - exists (c :: p). cbn. rewrite Hc, Hp. split; [congruence|reflexivity].
  - exists []. auto.
Qed.

Lemma trimStart_fixed c s : isWhiteSpace c = false -> trimStart (c :: s) = c :: s.
Proof. intros H. cbn. rewrite H. reflexivity. Qed.

Lemma trimStart_head s :
  trimStart s = s -> s = [] \/ exists c s', s = c :: s' /\ isWhiteSpace c = false.
Proof.
  destruct s as [|c s]; [auto|]. cbn. destruct (isWhiteSpace c) eqn:Hc.
  - intros E. destruct (trimStart_split s) as (p & Es & _).
    apply (f_equal (@List.length _)) in E.
    apply (f_equal (@List.length _)) in Es.
    rewrite length_app in Es. cbn in E. lia.
  - right. eauto.
Qed.

Lemma trimStart_idempotent s : trimStart (trimStart s) = trimStart s.
Proof.
  induction s as [|c s IH]; cbn; [reflexivity|].
  destruct (isWhiteSpace c) eqn:Hc; [exact IH|]. cbn. rewrite Hc. reflexivity.
Qed.

Lemma trimStart_snoc a c :
  isWhiteSpace c = false -> trimStart (a ++ [c]) = trimStart a ++ [c].
Proof.
  intros Hc. induction a as [|x a IH]; cbn; [rewrite Hc; reflexivity|].
  destruct (isWhiteSpace x); [exact IH|reflexivity].
Qed.

Lemma forallb_rev {A} (f : A -> bool) l :
  forallb f (rev l) = forallb f l.
Proof.
  induction l as [|x l IH]; cbn; [reflexivity|].
  rewrite forallb_app, IH. cbn. rewrite andb_true_r. apply andb_comm.
Qed.

Lemma trim_trimmed s : trimmed (trim s).
Proof.
  unfold trimmed, trim, trimEnd. rewrite rev_involutive, trimStart_idempotent.
  split; [|reflexivity].
  destruct (trimStart_head (trimStart s) (trimStart_idempotent s))
    as [->|(c & t & -> & Hc)]; [reflexivity|].
  cbn [rev]. rewrite (trimStart_snoc _ _ Hc), rev_app_distr. cbn.
  rewrite Hc. reflexivity.
Qed.

Lemma trim_split s :
  exists p q, s = p ++ trim s ++ q
              /\ forallb isWhiteSpace p = true /\ forallb isWhiteSpace q = true.
Proof.
  destruct (trimStart_split s) as (p & Es & Hp).
  destruct (trimStart_split (rev (trimStart s))) as (q & Eq & Hq).
  exists p, (rev q). unfold trim, trimEnd. repeat split; auto.
  - rewrite <- rev_app_distr, <- Eq, rev_involutive. exact Es.
  - rewrite forallb_rev. exact Hq.
Qed.

(** The trimmed middle of a text between white space is its [trim]. *)
Lemma trim_unique p m q :
  forallb isWhiteSpace p = true -> forallb isWhiteSpace q = true ->
  trimmed m -> trim (p ++ m ++ q) = m.
Proof.
  intros Hp Hq [H1 H2]. unfold trim, trimEnd. rewrite (trimStart_app_ws _ _ Hp).
  destruct (trimStart_head _ H1) as [->|(c & t & -> & Hc)].
  - cbn [app]. rewrite (proj2 (trimStart_all_ws q) Hq). reflexivity.
  - cbn [app]. rewrite (trimStart_fixed _ _ Hc).
    change (c :: t ++ q) with ((c :: t) ++ q).
    rewrite rev_app_distr, trimStart_app_ws by (rewrite forallb_rev; exact Hq).
    rewrite H2. apply rev_involutive.
Qed.

Lemma trim_pad p s q :
  forallb isWhiteSpace p = true -> forallb isWhiteSpace q = true ->
  trim (p ++ s ++ q) = trim s.
Proof.
  intros Hp Hq. destruct (trim_split s) as (p' & q' & E & Hp' & Hq').
  rewrite E at 1.
  replace (p ++ (p' ++ trim s ++ q') ++ q)
    with ((p ++ p') ++ trim s ++ (q' ++ q))
    by (rewrite <- !app_assoc; reflexivity).
  apply trim_unique; [| |apply trim_trimmed];
    rewrite forallb_app; apply andb_true_intro; auto.
Qed.

Lemma trim_idempotent s : trim (trim s) = trim s.
Proof.
  rewrite <- (app_nil_r (trim s)) at 1.
  exact (trim_unique [] (trim s) [] eq_refl eq_refl (trim_trimmed s)).
Qed.

Lemma trim_empty s : trim s = [] <-> forallb isWhiteSpace s = true.
Proof.
  split.
  - intros E. destruct (trim_split s) as (p & q & Es & Hp & Hq).
    rewrite E in Es. rewrite Es, forallb_app, Hp. exact Hq.
  - intros H. unfold trim. rewrite (proj2 (trimStart_all_ws s) H). reflexivity.
Qed.

Lemma in_trim c s : In c (trim s) -> In c s.
Proof.
  intros H. destruct (trim_split s) as (p & q & E & _). rewrite E.
  apply in_or_app. right. apply in_or_app. left. exact H.
Qed.

(** ** Lines *)

Lemma split_pieces sep s p : In p (split sep s) -> ~ In sep p.
Proof.
  revert p. induction s as [|c s IH]; cbn; intros p.
  - intros [<-|[]]. auto.
  - destruct (c =? sep) eqn:E.
    + intros [<-|H]; [auto|exact (IH _ H)].
    + destruct (split sep s) as [|q qs] eqn:Es;
        [destruct (split_not_nil _ _ Es)|].
      intros [<-|H].
      * apply N.eqb_neq in E. intros [->|Hin]; [congruence|].
        exact (IH q (or_introl eq_refl) Hin).
      * exact (IH _ (or_intror H)).
Qed.

Lemma split_join ls :
  ls <> [] -> Forall (fun l => ~ In newline l) ls ->
  split newline (join_lines ls) = ls.
Proof.
  induction ls as [|l ls IH]; [congruence|]. intros _ H.
  inversion H as [|? ? Hl Hls]; subst. destruct ls as [|l' ls].
  - cbn. apply split_no_sep, Hl.
  - change (join_lines (l :: l' :: ls))
      with (l ++ newline :: join_lines (l' :: ls)).
    rewrite split_app, (split_no_sep _ _ Hl), IH by (auto; discriminate).
    reflexivity.
Qed.

Lemma line_no_newline raw line : In line (lines_of raw) -> ~ In newline line.
Proof.
  unfold lines_of. intros H. apply in_map_iff in H as (p & <- & Hp).
  intros Hin. exact (split_pieces _ _ _ Hp (in_trim _ _ Hin)).
Qed.

(** X14: the parser sees a text only through its trimmed lines: white space
    around a line, such as indentation or the carriage return of a CRLF
    ending, never changes the record. *)
Theorem parseWhoisOutput_ignores_padding
    (Date_parse : jsstring -> option Z) :
  (forall ls ls',
      ls <> [] ->
      Forall (fun l => ~ In newline l) ls ->
      Forall (fun l => ~ In newline l) ls' ->
      map trim ls = map trim ls' ->
      parseWhoisOutput Date_parse (join_lines ls)
      = parseWhoisOutput Date_parse (join_lines ls'))
  /\ (forall p l q,
         forallb isWhiteSpace p = true -> forallb isWhiteSpace q = true ->
         trim (p ++ l ++ q) = trim l)
  /\ (forall ls,
         ls <> [] ->
         Forall (fun l => ~ In newline l) ls ->
         parseWhoisOutput Date_parse (join_lines (map (fun l => l ++ [13]) ls))
         = parseWhoisOutput Date_parse (join_lines ls)).
Proof.
  assert (Hsame : forall ls ls',
             ls <> [] ->
             Forall (fun l => ~ In newline l) ls ->
             Forall (fun l => ~ In newline l) ls' ->
             map trim ls = map trim ls' ->
             parseWhoisOutput Date_parse (join_lines ls)
             = parseWhoisOutput Date_parse (join_lines ls')).
  { intros ls ls' Hne H H' E.
    assert (ls' <> []) as Hne'.
    { intros ->. destruct ls; [congruence|discriminate]. }
    unfold parseWhoisOutput, scan, lines_of.
    rewrite (split_join _ Hne H), (split_join _ Hne' H'), E. reflexivity. }
  split; [exact Hsame|]. split; [exact trim_pad|].
  intros ls Hne H. apply Hsame.
  - destruct ls; [congruence|discriminate].
  - apply Forall_map. revert H. apply Forall_impl. intros l Hl Hin.
    apply in_app_or in Hin as [Hin|[Hin|[]]]; [auto|discriminate].
  - exact H.
  - rewrite map_map. apply map_ext. intros l.
    exact (trim_pad [] l [13] eq_refl eq_refl).
Qed.

Lemma parseWhoisOutput_ignores_padding_witness :
  parseWhoisOutput Platform.Date_parse
    (join_lines [lit "   Creation Date: 1997-09-15"; lit "Country: US "])
  = parseWhoisOutput Platform.Date_parse
      (join_lines [lit "Creation Date: 1997-09-15"; lit " Country: US"]).
Proof.
  apply (proj1 (parseWhoisOutput_ignores_padding Platform.Date_parse)).
  - discriminate.
  - repeat constructor; cbv; intuition discriminate.
  - repeat constructor; cbv; intuition discriminate.
  - reflexivity.
Defined.

(** ** getCleanHostname *)

Lemma scheme_prepended t : test scheme (lit "http://" ++ t) = true.
Proof. reflexivity. Qed.

(** X9: [getCleanHostname] hands to [URL] only texts that begin with
    [http://] or [https://] (in any case), and white space around a
    non-blank input does not change the result. *)
Theorem getCleanHostname_consults_URL_with_scheme
    (URL_hostname : jsstring -> option jsstring) (input : jsstring) :
  getCleanHostname URL_hostname input
  = getCleanHostname (fun u => if test scheme u then URL_hostname u else None)
      input
  /\ (trim input <> [] ->
      getCleanHostname URL_hostname (trim input)
      = getCleanHostname URL_hostname input).
Proof.
  split.
  - unfold getCleanHostname. destruct (negb (truthy (Some input)));
      [reflexivity|]. cbv zeta.
    destruct (test scheme (trim input)) eqn:E; cbn [negb].
    + rewrite E. reflexivity.
    + rewrite scheme_prepended. reflexivity.
  - intros H. unfold getCleanHostname. rewrite trim_idempotent.
    destruct (trim input) as [|c t] eqn:E; [congruence|].
    destruct input as [|c' i]; [discriminate|]. reflexivity.
Qed.

Lemma getCleanHostname_consults_URL_with_scheme_witness :
  getCleanHostname Platform.hostname (trim (lit "  Example.COM "))
  = getCleanHostname Platform.hostname (lit "  Example.COM ").
Proof.
  apply (proj2 (getCleanHostname_consults_URL_with_scheme Platform.hostname
                  (lit "  Example.COM "))).
  discriminate.
Defined.

(** ** extractDate *)

Lemma date_at_needs_digit sep s :
  date_at sep s = true -> exists c s', s = c :: s' /\ isDigit c = true.
Proof.
  unfold date_at, is_date. destruct s as [|c s]; [discriminate|].
  intros H. exists c, s. split; [reflexivity|].
  do 9 (destruct s as [|? s]; [discriminate|]). cbn in H.
  destruct (isDigit c); [reflexivity|discriminate].
Qed.

Lemma firstn_date sep d rest :
  is_date sep d = true -> firstn 10 (d ++ rest) = d.
Proof.
  intros H. rewrite <- (is_date_length _ _ H), firstn_app, firstn_all,
    Nat.sub_diag. cbn. apply app_nil_r.
Qed.

(** X2: the result of [extractDate] always has the shape [YYYY-MM-DD], and
    [extractDate] returns such a string unchanged. *)
Theorem extractDate_canonical :
  (forall line d, extractDate line = Some d -> is_date hyphen d = true)
  /\ (forall d, is_date hyphen d = true -> extractDate d = Some d)
  /\ (forall line d, extractDate line = Some d -> extractDate d = Some d).
Proof.
  assert (Hfix : forall d, is_date hyphen d = true -> extractDate d = Some d).
  { intros d H. unfold extractDate.
    rewrite (exec_date_leftmost hyphen d 0); cbn [skipn].
    - rewrite <- (app_nil_r d) at 1. rewrite (firstn_date _ _ _ H). reflexivity.
    - intros j Hj. lia.
    - unfold date_at. rewrite <- (app_nil_r d), (firstn_date _ _ _ H). exact H. }
  split; [exact extractDate_is_date|]. split; [exact Hfix|].
  intros line d H. exact (Hfix _ (extractDate_is_date _ _ H)).
Qed.

Lemma extractDate_canonical_witness :
  extractDate (lit "2020-05-01") = Some (lit "2020-05-01").
Proof.
  apply (proj2 (proj2 extractDate_canonical) (lit "Expires on: 2020/05/01")).
  reflexivity.
Defined.

(** X3: a [YYYY-MM-DD] date is found whatever follows it (a time of day, a
    time zone, a second date) and whatever text without a digit precedes
    it. *)
Theorem extractDate_first_date_after_text pre d rest :
  (forall c, In c pre -> isDigit c = false) ->
  is_date hyphen d = true ->
  extractDate (pre ++ d ++ rest) = Some d.
Proof.
  intros Hpre Hd. unfold extractDate.
  rewrite (exec_date_leftmost hyphen _ (List.length pre)).
  - rewrite skipn_app, skipn_all, Nat.sub_diag. cbn [skipn app].
    rewrite (firstn_date _ _ _ Hd). reflexivity.
  - intros j Hj. destruct (date_at hyphen (skipn j (pre ++ d ++ rest))) eqn:E;
      [|reflexivity].
    destruct (date_at_needs_digit _ _ E) as (c & s' & Es & Hc).
    rewrite skipn_app in Es.
    replace (j - List.length pre)%nat with 0%nat in Es by lia.
    cbn [skipn] in Es.
    destruct (skipn j pre) as [|x t] eqn:Ej.
    + apply (f_equal (@List.length _)) in Ej. rewrite length_skipn in Ej.
      cbn in Ej. lia.
    + cbn in Es. injection Es as -> _.
      rewrite (Hpre c) in Hc; [discriminate|].
      apply (in_skipn j). rewrite Ej. left. reflexivity.
  - rewrite skipn_app, skipn_all, Nat.sub_diag. cbn [skipn app].
    unfold date_at. rewrite (firstn_date _ _ _ Hd). exact Hd.
Qed.

Lemma extractDate_first_date_after_text_witness :
  extractDate (lit "Registry Expiry Date: " ++ lit "2028-09-14"
               ++ lit "T04:00:00Z") = Some (lit "2028-09-14").
Proof.
  apply extractDate_first_date_after_text; [|reflexivity].
  intros c H. cbv in H.
  repeat (destruct H as [<-|H]; [reflexivity|]). destruct H.
Defined.

(** ** Labels *)

Lemma canonicalize_idempotent c : canonicalize (canonicalize c) = canonicalize c.
Proof.
  unfold canonicalize. destruct (isLowerAscii c) eqn:E; [|rewrite E; reflexivity].
  unfold isLowerAscii in *. apply andb_prop in E as [E1 E2].
  apply N.leb_le in E1, E2.
  destruct ((97 <=? c - 32) && (c - 32 <=? 122)) eqn:F; [|reflexivity].
  apply andb_prop in F as [F1 F2]. apply N.leb_le in F1, F2. lia.
Qed.

Lemma isDigit_canonicalize c : isDigit (canonicalize c) = isDigit c.
Proof.
  unfold canonicalize. destruct (isLowerAscii c) eqn:E; [|reflexivity].
  unfold isLowerAscii, isDigit in *. apply andb_prop in E as [E1 E2].
  apply N.leb_le in E1, E2.
  transitivity false; [|symmetry]; apply andb_false_iff; right;
    apply N.leb_gt; lia.
Qed.

Lemma atom_matches_canonicalize a c :
  atom_matches true a (canonicalize c) = atom_matches true a c.
Proof.
  destruct a; cbn; [rewrite canonicalize_idempotent; reflexivity|].
  apply isDigit_canonicalize.
Qed.

Lemma matched_option_map {A B} (f : A -> B) (x : option A) :
  match option_map f x with Some _ => true | None => false end
  = match x with Some _ => true | None => false end.
Proof. destruct x; reflexivity. Qed.

Lemma match_here_canonicalize r s :
  matched (match_here true r (map canonicalize s))
  = matched (match_here true r s).
Proof.
  unfold matched. revert s. induction r as [|[a|a] r IH]; intros s; cbn;
    [reflexivity| |].
  - destruct s as [|c s]; cbn; [reflexivity|].
    rewrite atom_matches_canonicalize. destruct (atom_matches true a c);
      [|reflexivity].
    rewrite !matched_option_map. apply IH.
  - destruct s as [|c s]; cbn; [apply (IH [])|].
    rewrite atom_matches_canonicalize. destruct (atom_matches true a c).
    + pose proof (IH s) as H1. pose proof (IH (c :: s)) as H2. cbn in H2.
      destruct (match_here true r (map canonicalize s)),
        (match_here true r s); cbn in *; try reflexivity; try discriminate.
      exact H2.
    + apply (IH (c :: s)).
Qed.

Lemma search_matched ic r s :
  matched (search ic r s) = true
  <-> exists i, matched (match_here ic r (skipn i s)) = true.
Proof.
  split.
  - destruct (search ic r s) as [m|] eqn:E; [|discriminate]. intros _.
    destruct (search_some _ _ _ _ E) as (i & Hi & _). exists i.
    rewrite Hi. reflexivity.
  - intros (i & Hi). destruct (search ic r s) eqn:E; [reflexivity|].
    rewrite (proj1 (search_none _ _ _) E i) in Hi. discriminate.
Qed.

Lemma test_canonicalize re s :
  ignoreCase re = true -> test re (map canonicalize s) = test re s.
Proof.
  intros Hic. unfold test, exec. rewrite Hic. destruct (anchored re).
  - apply match_here_canonicalize.
  - apply eq_true_iff_eq. change (matched (search true (items re) (map canonicalize s)) = true
                                  <-> matched (search true (items re) s) = true).
    rewrite !search_matched. split; intros (i & Hi); exists i.
    + rewrite skipn_map, match_here_canonicalize in Hi. exact Hi.
    + rewrite skipn_map, match_here_canonicalize. exact Hi.
Qed.

Lemma test_same_up_to_case re a b :
  ignoreCase re = true -> same_up_to_case a b -> test re a = test re b.
Proof.
  intros Hic E. rewrite <- (test_canonicalize re a Hic),
    <- (test_canonicalize re b Hic). unfold same_up_to_case in E.
  rewrite E. reflexivity.
Qed.

Lemma toLowerCase_same_up_to_case s : same_up_to_case (toLowerCase s) s.
Proof.
  unfold same_up_to_case, toLowerCase. rewrite map_map. apply map_ext.
  intros c. unfold toLowerUnit, canonicalize, isUpperAscii, isLowerAscii.
  destruct ((65 <=? c) && (c <=? 90)) eqn:E; [|reflexivity].
  apply andb_prop in E as [E1 E2]. apply N.leb_le in E1, E2.
  replace ((97 <=? c + 32) && (c + 32 <=? 122)) with true
    by (symmetry; apply andb_true_intro; split; apply N.leb_le; lia).
  replace ((97 <=? c) && (c <=? 122)) with false
    by (symmetry; apply andb_false_iff; left; apply N.leb_gt; lia).
  lia.
Qed.

(** X7: the four label tests do not depend on the case of ASCII letters:
    two lines that differ only in case match the same labels, and so does a
    line and its lower-case form. *)
Theorem labels_ignore_case :
  (forall a b,
      same_up_to_case a b ->
      country_label a = country_label b
      /\ creation_label a = creation_label b
      /\ updated_label a = updated_label b
      /\ expiry_label a = expiry_label b)
  /\ (forall line,
         country_label (toLowerCase line) = country_label line
         /\ creation_label (toLowerCase line) = creation_label line
         /\ updated_label (toLowerCase line) = updated_label line
         /\ expiry_label (toLowerCase line) = expiry_label line).
Proof.
  assert (H : forall a b,
             same_up_to_case a b ->
             country_label a = country_label b
             /\ creation_label a = creation_label b
             /\ updated_label a = updated_label b
             /\ expiry_label a = expiry_label b).
  { intros a b E.
    unfold country_label, creation_label, updated_label, expiry_label.
    repeat split;
      repeat match goal with
             | |- context [test ?re a] =>
                 rewrite (test_same_up_to_case re a b eq_refl E)
             end; reflexivity. }
  split; [exact H|]. intros line. apply H, toLowerCase_same_up_to_case.
Qed.

Lemma labels_ignore_case_witness :
  country_label (lit "REGISTRANT COUNTRY: us")
  = country_label (lit "Registrant Country: US")
  /\ creation_label (lit "REGISTRANT COUNTRY: us")
     = creation_label (lit "Registrant Country: US")
  /\ updated_label (lit "REGISTRANT COUNTRY: us")
     = updated_label (lit "Registrant Country: US")
  /\ expiry_label (lit "REGISTRANT COUNTRY: us")
     = expiry_label (lit "Registrant Country: US").
Proof.
  apply (proj1 labels_ignore_case). reflexivity.
Defined.

Lemma match_here_app_ones ic r1 r2 s :
  matched (match_here ic (map One r1 ++ r2) s) = true ->
  matched (match_here ic r2 (skipn (List.length r1) s)) = true.
Proof.
  unfold matched. revert s. induction r1 as [|a r1 IH]; intros s; cbn; [auto|].
  destruct s as [|c s]; cbn; [discriminate|].
  destruct (atom_matches ic a c); [|discriminate].
  rewrite matched_option_map. apply IH.
Qed.

(** X8: the test [/last updated on:/i] adds nothing: a line that matches it
    matches [/updated on:/i], so the update label is decided by
    [/updated on:/i] and [/updated date:/i] alone. *)
Theorem last_updated_on_is_redundant line :
  updated_label line
  = test (label "updated on:") line || test (label "updated date:") line.
Proof.
  unfold updated_label.
  destruct (test (label "updated on:") line) eqn:E; [reflexivity|].
  destruct (test (label "last updated on:") line) eqn:F; [|reflexivity].
  exfalso. unfold test, exec in E, F. cbn [anchored ignoreCase items label] in *.
  assert (matched (search true (chars "last updated on:") line) = true) as Hm
      by exact F.
  apply search_matched in Hm as (i & Hi).
  change (chars "last updated on:")
    with (map One (map Chr (lit "last ")) ++ chars "updated on:") in Hi.
  apply match_here_app_ones in Hi. rewrite skipn_skipn in Hi.
  assert (matched (search true (chars "updated on:") line) = true) as Hs.
  { apply search_matched. eexists. exact Hi. }
  unfold matched in Hs. rewrite E in Hs. discriminate.
Qed.

(** ** The lookup *)

Lemma getWhoisData_sound
    (Date_parse : jsstring -> option Z)
    (child_exec : nat -> jsstring -> exec_result)
    (n : nat) (hostname : jsstring) :
  (forall error,
      getWhoisData Date_parse child_exec n hostname = Failure error ->
      error <> [])
  /\ (forall raw parsed,
         getWhoisData Date_parse child_exec n hostname = Success raw parsed ->
         raw <> [] /\ parsed = parseWhoisOutput Date_parse raw).
Proof.
  unfold getWhoisData, getWhoisRaw.
  destruct (child_exec n (lit "whois " ++ hostname)) as [[message|] out];
    cbn [exec_error exec_stdout].
  - split; [intros error [= <-]|]; discriminate.
  - destruct out as [|c out]; cbn [truthy negb].
    + split; [intros error [= <-]|]; discriminate.
    + split; [discriminate|]. intros raw parsed [= <- <-].
      split; [discriminate|reflexivity].
Qed.

(** X1: a lookup succeeds exactly when the command reported no error and
    wrote something; the raw text is then the command's output, never empty,
    and the record is its parse.  An error wins over any output, and a
    failure reason is never the empty string. *)
Theorem getWhoisData_outcome
    (Date_parse : jsstring -> option Z)
    (child_exec : nat -> jsstring -> exec_result)
    (n : nat) (hostname : jsstring) :
  let r := child_exec n (lit "whois " ++ hostname) in
  (forall raw parsed,
      getWhoisData Date_parse child_exec n hostname = Success raw parsed
      <-> exec_error r = None /\ exec_stdout r = raw /\ raw <> []
          /\ parsed = parseWhoisOutput Date_parse raw)
  /\ (forall message,
         exec_error r = Some message ->
         getWhoisData Date_parse child_exec n hostname
         = Failure (lit "Error al ejecutar WHOIS: " ++ message))
  /\ (forall error,
         getWhoisData Date_parse child_exec n hostname = Failure error ->
         error <> []
         /\ (exec_error r <> None \/ exec_stdout r = [])).
Proof.
  cbv zeta. unfold getWhoisData, getWhoisRaw.
  destruct (child_exec n (lit "whois " ++ hostname)) as [err out].
  cbn [exec_error exec_stdout]. destruct err as [message|].
  - split; [|split].
    + intros raw parsed. split; [discriminate|]. intros (H & _). discriminate.
    + intros m [= ->]. reflexivity.
    + intros error [= <-]. split; [discriminate|]. left. discriminate.
  - destruct out as [|c out]; cbn [truthy negb].
    + split; [|split].
      * intros raw parsed. split; [discriminate|].
        intros (_ & <- & H & _). congruence.
      * discriminate.
      * intros error [= <-]. split; [discriminate|]. right. reflexivity.
    + split; [|split].
      * intros raw parsed. split.
        -- intros [= <- <-]. repeat split. discriminate.
        -- intros (_ & <- & _ & ->). reflexivity.
      * discriminate.
      * discriminate.
Qed.

Lemma getWhoisData_outcome_witness :
  getWhoisData Platform.Date_parse whois_always_US 0 (lit "example.com")
  = Success (lit "Registrant Country: US")
      (parseWhoisOutput Platform.Date_parse (lit "Registrant Country: US")).
Proof.
  apply (proj1 (getWhoisData_outcome Platform.Date_parse whois_always_US 0
                  (lit "example.com"))).
  repeat split. discriminate.
Defined.

(** ** Where the values of the record come from *)

(** A variable that every line either assigns or leaves alone ends as the
    value of the last line that assigns it. *)
Lemma fold_scan_last
    (g : fields jsstring -> option jsstring) (f : jsstring -> option jsstring) :
  (forall st line, g (scan_line st line) = assigned (f line) (g st)) ->
  forall lines st,
    (g (fold_left scan_line lines st) = g st
     /\ forall line, In line lines -> f line = None)
    \/ (exists before line after v,
          lines = before ++ line :: after
          /\ f line = Some v
          /\ (forall l, In l after -> f l = None)
          /\ g (fold_left scan_line lines st) = Some v).
Proof.
  intros Hg lines. induction lines as [|l lines IH] using rev_ind; intros st.
  - left. split; [reflexivity|]. intros line [].
  - rewrite fold_left_app. cbn [fold_left]. rewrite Hg.
    destruct (f l) as [v|] eqn:E; cbn.
    + right. exists lines, l, [], v. repeat split; auto. intros x [].
    + destruct (IH st) as [(H1 & H2)|(b & x & a & v & -> & Hx & Ha & Hv)].
      * left. split; [exact H1|]. intros line Hin.
        apply in_app_or in Hin as [Hin|[<-|[]]]; auto.
      * right. exists b, x, (a ++ [l]), v. repeat split; auto.
        -- rewrite <- app_assoc. reflexivity.
        -- intros y Hin. apply in_app_or in Hin as [Hin|[<-|[]]]; auto.
Qed.

Lemma scan_country st line :
  registrantCountry (scan_line st line)
  = assigned (country_value line) (registrantCountry st).
Proof. rewrite scan_line_assigned. reflexivity. Qed.

Lemma scan_creation st line :
  creationDate (scan_line st line)
  = assigned (creation_value line) (creationDate st).
Proof. rewrite scan_line_assigned. reflexivity. Qed.

Lemma scan_updated st line :
  updatedDate (scan_line st line)
  = assigned (updated_value line) (updatedDate st).
Proof. rewrite scan_line_assigned. reflexivity. Qed.

Lemma scan_expiry st line :
  expiryDate (scan_line st line)
  = assigned (expiry_value line) (expiryDate st).
Proof. rewrite scan_line_assigned. reflexivity. Qed.

Lemma scan_absent_iff
    (g : fields jsstring -> option jsstring) (f : jsstring -> option jsstring)
    raw :
  (forall st line, g (scan_line st line) = assigned (f line) (g st)) ->
  g unset = None ->
  (g (scan raw) = None <-> forall line, In line (lines_of raw) -> f line = None).
Proof.
  intros Hg H0. unfold scan.
  destruct (fold_scan_last g f Hg (lines_of raw) unset)
    as [(H1 & H2)|(b & x & a & v & E & Hx & Ha & Hv)].
  - rewrite H1, H0. tauto.
  - rewrite Hv. split; [discriminate|]. intros H.
    rewrite (H x) in Hx; [discriminate|]. rewrite E. apply in_elt.
Qed.

(** X4: a field is absent exactly when no line yields a value for it: the
    country of the record is absent exactly when no line matches a country
    label with a non-empty value, and each of the three date strings is
    unset exactly when no line matches the label of that field and holds a
    date. *)
Theorem field_absent_iff_no_line_has_it
    (Date_parse : jsstring -> option Z) (raw : jsstring) :
  (registrantCountry (parseWhoisOutput Date_parse raw) = None
   <-> forall line rest,
         In line (lines_of raw) -> country_label line = true ->
         after_first colon line = Some rest ->
         trim (before_first colon rest) = [])
  /\ (creationDate (scan raw) = None
      <-> forall line, In line (lines_of raw) -> creation_label line = true ->
                       extractDate line = None)
  /\ (updatedDate (scan raw) = None
      <-> forall line, In line (lines_of raw) -> updated_label line = true ->
                       extractDate line = None)
  /\ (expiryDate (scan raw) = None
      <-> forall line, In line (lines_of raw) -> expiry_label line = true ->
                       extractDate line = None).
Proof.
  split; [|split; [|split]].
  - unfold parseWhoisOutput. cbn [registrantCountry].
    rewrite (scan_absent_iff _ _ raw scan_country eq_refl).
    split; intros H line.
    + intros rest Hin Hl Hr. specialize (H line Hin).
      rewrite country_value_second_piece, Hl, Hr in H.
      destruct (trim (before_first colon rest)); [reflexivity|discriminate].
    + intros Hin. rewrite country_value_second_piece.
      destruct (country_label line) eqn:Hl; [|reflexivity].
      destruct (after_first colon line) as [rest|] eqn:Hr; [|reflexivity].
      rewrite (H line rest Hin Hl Hr). reflexivity.
  - rewrite (scan_absent_iff _ _ raw scan_creation eq_refl).
    unfold creation_value. split; intros H line Hin.
    + intros Hl. specialize (H line Hin). rewrite Hl in H. exact H.
    + destruct (creation_label line) eqn:Hl; auto.
  - rewrite (scan_absent_iff _ _ raw scan_updated eq_refl).
    unfold updated_value. split; intros H line Hin.
    + intros Hl. specialize (H line Hin). rewrite Hl in H. exact H.
    + destruct (updated_label line) eqn:Hl; auto.
  - rewrite (scan_absent_iff _ _ raw scan_expiry eq_refl).
    unfold expiry_value. split; intros H line Hin.
    + intros Hl. specialize (H line Hin). rewrite Hl in H. exact H.
    + destruct (expiry_label line) eqn:Hl; auto.
Qed.

Lemma field_absent_iff_no_line_has_it_witness :
  registrantCountry
    (parseWhoisOutput Platform.Date_parse
       (lit "Country:" ++ newline :: lit "Tech Country: AR")) = None.
Proof.
  apply (proj1 (field_absent_iff_no_line_has_it Platform.Date_parse _)).
  intros line rest Hin. cbv in Hin.
  destruct Hin as [<-|[<-|[]]]; intros Hl Hr.
  - injection Hr as <-. reflexivity.
  - discriminate Hl.
Defined.

Lemma before_first_free sep s : ~ In sep (before_first sep s).
Proof.
  induction s as [|c s IH]; cbn; [tauto|].
  destruct (c =? sep) eqn:E; cbn; [tauto|].
  apply N.eqb_neq in E. intros [H|H]; [congruence|auto].
Qed.

Lemma in_before_first sep s c : In c (before_first sep s) -> In c s.
Proof.
  induction s as [|x s IH]; cbn; [tauto|].
  destruct (x =? sep); cbn; [tauto|]. intros [H|H]; auto.
Qed.

Lemma in_after_first_some sep s rest c :
  after_first sep s = Some rest -> In c rest -> In c s.
Proof.
  induction s as [|x s IH]; cbn; [discriminate|].
  destruct (x =? sep); [intros [= ->]; auto|]. intros H Hin. right. auto.
Qed.

Lemma country_value_some line v :
  country_value line = Some v ->
  country_label line = true
  /\ exists rest, after_first colon line = Some rest
                  /\ v = trim (before_first colon rest) /\ v <> [].
Proof.
  rewrite country_value_second_piece.
  destruct (country_label line); [|discriminate].
  destruct (after_first colon line) as [rest|]; [|discriminate].
  destruct (trim (before_first colon rest)) as [|c t] eqn:E; cbn;
    [discriminate|].
  intros [= <-]. split; [reflexivity|]. exists rest. rewrite E.
  repeat split. discriminate.
Qed.

(** X6: each value of the record comes from the last line that yields one:
    a present country is the trimmed text between the first two colons of
    the last line that matches a country label with a non-empty value; a
    present date is the conversion by [Date] of the date extracted from the
    last line that matches the label of that field and holds a date. *)
Theorem record_values_come_from_last_line
    (Date_parse : jsstring -> option Z) (raw : jsstring) :
  (forall v,
      registrantCountry (parseWhoisOutput Date_parse raw) = Some v ->
      exists before line after rest,
        lines_of raw = before ++ line :: after
        /\ country_label line = true
        /\ after_first colon line = Some rest
        /\ v = trim (before_first colon rest)
        /\ forall l, In l after -> country_value l = None)
  /\ (forall t,
         creationDate (parseWhoisOutput Date_parse raw) = Some t ->
         exists before line after s,
           lines_of raw = before ++ line :: after
           /\ creation_label line = true
           /\ extractDate line = Some s
           /\ Date_parse s = Some t
           /\ forall l, In l after -> creation_label l = true ->
                         extractDate l = None)
  /\ (forall t,
         updatedDate (parseWhoisOutput Date_parse raw) = Some t ->
         exists before line after s,
           lines_of raw = before ++ line :: after
           /\ updated_label line = true
           /\ extractDate line = Some s
           /\ Date_parse s = Some t
           /\ forall l, In l after -> updated_label l = true ->
                         extractDate l = None)
  /\ (forall t,
         expiryDate (parseWhoisOutput Date_parse raw) = Some t ->
         exists before line after s,
           lines_of raw = before ++ line :: after
           /\ expiry_label line = true
           /\ extractDate line = Some s
           /\ Date_parse s = Some t
           /\ forall l, In l after -> expiry_label l = true ->
                         extractDate l = None).
Proof.
  assert (Hdate : forall (g : fields jsstring -> option jsstring)
                         (lab : jsstring -> bool) t,
             (forall st line,
                 g (scan_line st line)
                 = assigned (if lab line then extractDate line else None) (g st)) ->
             g unset = None ->
             toDate Date_parse (g (scan raw)) = Some t ->
             exists before line after s,
               lines_of raw = before ++ line :: after
               /\ lab line = true
               /\ extractDate line = Some s
               /\ Date_parse s = Some t
               /\ forall l, In l after -> lab l = true -> extractDate l = None).
  { intros g lab t Hg H0 Ht. unfold scan in Ht.
    destruct (fold_scan_last g _ Hg (lines_of raw) unset)
      as [(H1 & _)|(b & x & a & s & E & Hx & Ha & Hv)].
    - rewrite H1, H0 in Ht. discriminate.
    - rewrite Hv in Ht. exists b, x, a, s.
      destruct (lab x) eqn:Hl; [|discriminate].
      repeat split; auto.
      + unfold toDate in Ht. destruct s; [discriminate|exact Ht].
      + intros l Hin Hlab. specialize (Ha l Hin). rewrite Hlab in Ha.
        exact Ha. }
  split; [|split; [|split]].
  - intros v. unfold parseWhoisOutput, scan. cbn [registrantCountry].
    destruct (fold_scan_last _ _ scan_country (lines_of raw) unset)
      as [(H1 & _)|(b & x & a & w & E & Hx & Ha & Hv)].
    + rewrite H1. discriminate.
    + rewrite Hv. intros [= <-].
      destruct (country_value_some _ _ Hx) as (Hl & rest & Hr & Ev & _).
      exists b, x, a, rest. auto.
  - intros t H. exact (Hdate creationDate creation_label t scan_creation eq_refl H).
  - intros t H. exact (Hdate updatedDate updated_label t scan_updated eq_refl H).
  - intros t H. exact (Hdate expiryDate expiry_label t scan_expiry eq_refl H).
Qed.

Lemma record_values_come_from_last_line_witness :
  exists before line after rest,
    lines_of (lit "Country: US" ++ newline :: lit "Country: CA")
    = before ++ line :: after
    /\ country_label line = true
    /\ after_first colon line = Some rest
    /\ lit "CA" = trim (before_first colon rest)
    /\ forall l, In l after -> country_value l = None.
Proof.
  apply (proj1 (record_values_come_from_last_line Platform.Date_parse
                  (lit "Country: US" ++ newline :: lit "Country: CA"))).
  reflexivity.
Defined.

(** X5: a country in the record is never the empty string, has no white
    space at either end, and contains neither a colon nor a newline. *)
Theorem country_is_a_clean_token
    (Date_parse : jsstring -> option Z) (raw v : jsstring) :
  registrantCountry (parseWhoisOutput Date_parse raw) = Some v ->
  v <> [] /\ trimmed v /\ ~ In colon v /\ ~ In newline v.
Proof.
  unfold parseWhoisOutput, scan. cbn [registrantCountry].
  destruct (fold_scan_last _ _ scan_country (lines_of raw) unset)
    as [(H1 & _)|(b & x & a & w & E & Hx & Ha & Hv)].
  - rewrite H1. discriminate.
  - rewrite Hv. intros [= <-].
    destruct (country_value_some _ _ Hx) as (_ & rest & Hr & -> & Hne).
    split; [exact Hne|]. split; [apply trim_trimmed|]. split.
    + intros H. exact (before_first_free _ _ (in_trim _ _ H)).
    + intros H. apply (line_no_newline raw x).
      * rewrite E. apply in_elt.
      * apply (in_after_first_some _ _ _ _ Hr).
        exact (in_before_first _ _ _ (in_trim _ _ H)).
Qed.

Lemma country_is_a_clean_token_witness :
  lit "US" <> [] /\ trimmed (lit "US")
  /\ ~ In colon (lit "US") /\ ~ In newline (lit "US").
Proof.
  apply (country_is_a_clean_token Platform.Date_parse
           (lit "  Registrant Country:   US  : x")).
  reflexivity.
Defined.

(** ** The session *)

Lemma getCleanHostname_no_upper URL_hostname input h :
  getCleanHostname URL_hostname input = Some h ->
  forall c, In c h -> isUpperAscii c = false.
Proof.
  unfold getCleanHostname. destruct (negb (truthy (Some input)));
    [discriminate|]. cbv zeta.
  match goal with |- context [URL_hostname ?u] => destruct (URL_hostname u) as [host|] end;
    [|discriminate].
  assert (Hlow : forall c, In c (toLowerCase host) -> isUpperAscii c = false).
  { intros c Hc. apply in_map_iff in Hc as (x & <- & _).
    apply toLowerUnit_not_upper. }
  destruct (startsWith (lit "www.") (toLowerCase host)); intros [= <-] c Hc.
  - apply Hlow. exact (in_skipn 4 _ _ Hc).
  - exact (Hlow c Hc).
Qed.

Section Session.

Variable URL_hostname : jsstring -> option jsstring.
Variable Date_parse : jsstring -> option Z.

(** What one turn of the loop does, by the three ways it can go. *)
Lemma iteration_cases child_exec n answer :
  (trim answer = []
   /\ iteration URL_hostname Date_parse child_exec n answer = (Done, [Leaving]))
  \/ (trim answer <> []
      /\ (getCleanHostname URL_hostname (trim answer) = None
          \/ getCleanHostname URL_hostname (trim answer) = Some [])
      /\ iteration URL_hostname Date_parse child_exec n answer
         = (AwaitingInput, [InvalidURL]))
  \/ (exists c h,
        trim answer <> []
        /\ getCleanHostname URL_hostname (trim answer) = Some (c :: h)
        /\ iteration URL_hostname Date_parse child_exec n answer
           = (AwaitingInput,
              [Querying (c :: h);
               match getWhoisData Date_parse child_exec n (c :: h) with
               | Failure error => ErrorShown error
               | Success raw parsed => DataShown raw parsed
               end;
               AskAgain])).
Proof.
  unfold iteration. cbv zeta. destruct (trim answer) as [|x t] eqn:T;
    [left; auto|].
  right. cbn [truthy negb].
  destruct (getCleanHostname URL_hostname (x :: t)) as [[|c h]|] eqn:G.
  - left. repeat split; auto. discriminate.
  - right. exists c, h. repeat split; [discriminate|].
    destruct (getWhoisData Date_parse child_exec n (c :: h)); reflexivity.
  - left. repeat split; auto. discriminate.
Qed.

(** X13: an answer ends the session exactly when it consists of white space
    only (the empty answer included). *)
Theorem exit_iff_blank_answer child_exec n answer :
  fst (iteration URL_hostname Date_parse child_exec n answer) = Done
  <-> forallb isWhiteSpace answer = true.
Proof.
  rewrite iteration_state, <- trim_empty.
  destruct (trim answer); split; congruence.
Qed.

Lemma main_loop_app child_exec before after n :
  (forall a, In a before -> trim a <> []) ->
  main_loop URL_hostname Date_parse child_exec n (before ++ after)
  = (fst (main_loop URL_hostname Date_parse child_exec
            (n + List.length before) after),
     snd (main_loop URL_hostname Date_parse child_exec n before)
     ++ snd (main_loop URL_hostname Date_parse child_exec
               (n + List.length before) after)).
Proof.
  revert n. induction before as [|a before IH]; intros n H.
  - cbn [app List.length main_loop snd]. rewrite Nat.add_0_r.
    destruct (main_loop _ _ _ n after); reflexivity.
  - cbn [app main_loop List.length].
    destruct (iteration_cases child_exec n a)
      as [(T & _)|[(_ & _ & ->)|(c & h & _ & _ & ->)]].
    + destruct (H a (or_introl eq_refl) T).
    + rewrite IH by (intros x Hx; apply H; right; exact Hx).
      replace (S n + List.length before)%nat
        with (n + S (List.length before))%nat by lia.
      destruct (main_loop _ _ _ (S n) before); reflexivity.
    + rewrite IH by (intros x Hx; apply H; right; exact Hx).
      replace (S n + List.length before)%nat
        with (n + S (List.length before))%nat by lia.
      destruct (main_loop _ _ _ (S n) before); reflexivity.
Qed.

Lemma main_loop_no_exit child_exec answers n :
  (forall a, In a answers -> trim a <> []) ->
  ~ In Leaving (snd (main_loop URL_hostname Date_parse child_exec n answers)).
Proof.
  revert n. induction answers as [|a answers IH]; intros n H; cbn [main_loop].
  - intros [].
  - destruct (iteration_cases child_exec n a)
      as [(T & _)|[(_ & _ & ->)|(c & h & _ & _ & ->)]].
    + destruct (H a (or_introl eq_refl) T).
    + specialize (IH (S n) (fun x Hx => H x (or_intror Hx))).
      destruct (main_loop _ _ _ (S n) answers). cbn in *.
      intros [F|F]; [discriminate|auto].
    + specialize (IH (S n) (fun x Hx => H x (or_intror Hx))).
      destruct (main_loop _ _ _ (S n) answers). cbn [snd app] in *.
      intros [F|[F|[F|F]]]; try discriminate; auto.
      destruct (getWhoisData Date_parse child_exec n (c :: h)); discriminate.
Qed.

Lemma first_blank (answers : list jsstring) :
  (forall a, In a answers -> trim a <> [])
  \/ exists before a after,
       answers = before ++ a :: after /\ trim a = []
       /\ forall x, In x before -> trim x <> [].
Proof.
  induction answers as [|a answers [IH|(b & x & r & -> & Tx & Hb)]].
  - left. intros a [].
  - destruct (trim a) eqn:T.
    + right. exists [], a, answers. repeat split; auto.
    + left. intros x [<-|Hx]; [congruence|auto].
  - destruct (trim a) eqn:T.
    + right. exists [], a, (b ++ x :: r). repeat split; auto.
    + right. exists (a :: b), x, r. repeat split; auto.
      intros y [<-|Hy]; [congruence|auto].
Qed.

(** X10: answers after the first blank one are never read, and the farewell
    is written once, as the last thing of a session that is over, and never
    in one that is not. *)
Theorem nothing_after_exit child_exec :
  (forall before a after,
      trim a = [] ->
      main URL_hostname Date_parse child_exec (before ++ a :: after)
      = main URL_hostname Date_parse child_exec (before ++ [a]))
  /\ (forall answers out,
         main URL_hostname Date_parse child_exec answers = (Done, out) ->
         exists out', out = out' ++ [Leaving] /\ ~ In Leaving out')
  /\ (forall answers out,
         main URL_hostname Date_parse child_exec answers = (AwaitingInput, out) ->
         ~ In Leaving out).
Proof.
  assert (Hexit : forall n a after,
             trim a = [] ->
             main_loop URL_hostname Date_parse child_exec n (a :: after)
             = (Done, [Leaving])).
  { intros n a after T. cbn [main_loop].
    destruct (iteration_cases child_exec n a)
      as [(_ & ->)|[(T' & _)|(c & h & T' & _)]]; [reflexivity| |];
      destruct (T' T). }
  assert (Hcut : forall before a after,
             trim a = [] ->
             (forall x, In x before -> trim x <> []) ->
             main URL_hostname Date_parse child_exec (before ++ a :: after)
             = (Done,
                snd (main_loop URL_hostname Date_parse child_exec 0 before)
                ++ [Leaving])).
  { intros before a after T Hb. unfold main.
    rewrite (main_loop_app _ _ _ _ Hb), (Hexit _ _ _ T). reflexivity. }
  split; [|split].
  - intros before a after T.
    destruct (first_blank before) as [Hb|(b & x & r & -> & Tx & Hb)].
    + rewrite (Hcut _ _ after T Hb), (Hcut _ _ [] T Hb). reflexivity.
    + rewrite <- !app_assoc. cbn [app].
      rewrite (Hcut b x _ Tx Hb), (Hcut b x _ Tx Hb). reflexivity.
  - intros answers out H.
    destruct (first_blank answers) as [Hb|(b & x & r & -> & Tx & Hb)].
    + assert (fst (main URL_hostname Date_parse child_exec answers) = Done)
        as D by (rewrite H; reflexivity).
      apply main_loop_done in D as (a & Ha & Ta). destruct (Hb a Ha Ta).
    + rewrite (Hcut _ _ _ Tx Hb) in H. injection H as <-.
      eexists. split; [reflexivity|]. apply main_loop_no_exit, Hb.
  - intros answers out H.
    destruct (first_blank answers) as [Hb|(b & x & r & -> & Tx & Hb)].
    + replace out
        with (snd (main URL_hostname Date_parse child_exec answers))
        by (rewrite H; reflexivity).
      apply main_loop_no_exit, Hb.
    + rewrite (Hcut _ _ _ Tx Hb) in H. discriminate.
Qed.

(** What every event of a session satisfies. *)
Lemma main_loop_events child_exec (P : output -> Prop) answers :
  P Leaving -> P InvalidURL -> P AskAgain ->
  (forall n a c h,
      In a answers ->
      getCleanHostname URL_hostname (trim a) = Some (c :: h) ->
      P (Querying (c :: h))
      /\ P (match getWhoisData Date_parse child_exec n (c :: h) with
            | Failure error => ErrorShown error
            | Success raw parsed => DataShown raw parsed
            end)) ->
  forall n e,
    In e (snd (main_loop URL_hostname Date_parse child_exec n answers)) -> P e.
Proof.
  intros HL HI HA. induction answers as [|a answers IH]; intros H n e;
    cbn [main_loop]; [intros []|].
  assert (IH' : forall n e,
             In e (snd (main_loop URL_hostname Date_parse child_exec n answers))
             -> P e).
  { apply IH. intros k x c h Hx. apply H. right. exact Hx. }
  destruct (iteration_cases child_exec n a)
    as [(_ & ->)|[(_ & _ & ->)|(c & h & _ & G & ->)]].
  - intros [<-|[]]. exact HL.
  - specialize (IH' (S n)). destruct (main_loop _ _ _ (S n) answers).
    cbn [snd app] in *. intros [<-|Hin]; auto.
  - specialize (IH' (S n)). destruct (main_loop _ _ _ (S n) answers).
    cbn [snd app] in *.
    destruct (H n a c h (or_introl eq_refl) G) as (HQ & HR).
    intros [<-|[<-|[<-|Hin]]]; auto.
Qed.

(** X11: in the output of a session, every hostname announced is non-empty,
    has no upper-case letter and is the normal form of one of the answers;
    every record shown is the parse of the raw text shown with it, which is
    never empty; and every error shown is a non-empty message. *)
Theorem session_events_are_sound child_exec answers :
  let out := snd (main URL_hostname Date_parse child_exec answers) in
  (forall h,
      In (Querying h) out ->
      h <> []
      /\ (forall c, In c h -> isUpperAscii c = false)
      /\ exists answer,
           In answer answers
           /\ getCleanHostname URL_hostname (trim answer) = Some h)
  /\ (forall raw parsed,
         In (DataShown raw parsed) out ->
         raw <> [] /\ parsed = parseWhoisOutput Date_parse raw)
  /\ (forall error, In (ErrorShown error) out -> error <> []).
Proof.
  cbv zeta. unfold main.
  pose (P := fun e : output =>
    match e with
    | Querying h =>
        h <> []
        /\ (forall c, In c h -> isUpperAscii c = false)
        /\ exists answer,
             In answer answers
             /\ getCleanHostname URL_hostname (trim answer) = Some h
    | DataShown raw parsed =>
        raw <> [] /\ parsed = parseWhoisOutput Date_parse raw
    | ErrorShown error => error <> []
    | _ => True
    end).
  assert (HP : forall e,
             In e (snd (main_loop URL_hostname Date_parse child_exec 0 answers))
             -> P e).
  { apply main_loop_events; try exact I.
    intros n a c h Ha G. split.
    - cbn. split; [discriminate|]. split; [|eauto].
      exact (getCleanHostname_no_upper _ _ _ G).
    - destruct (getWhoisData Date_parse child_exec n (c :: h))
        as [error|raw parsed] eqn:E; cbn.
      + exact (proj1 (getWhoisData_sound Date_parse child_exec n (c :: h))
                 error E).
      + exact (proj2 (getWhoisData_sound Date_parse child_exec n (c :: h))
                 raw parsed E). }
  split; [|split].
  - intros h Hin. exact (HP _ Hin).
  - intros raw parsed Hin. exact (HP _ Hin).
  - intros error Hin. exact (HP _ Hin).
Qed.

Lemma iteration_lookup exec1 exec2 n answer :
  (forall c h,
      getCleanHostname URL_hostname (trim answer) = Some (c :: h) ->
      exec1 n (lit "whois " ++ c :: h) = exec2 n (lit "whois " ++ c :: h)) ->
  iteration URL_hostname Date_parse exec1 n answer
  = iteration URL_hostname Date_parse exec2 n answer.
Proof.
  intros H.
  destruct (iteration_cases exec1 n answer)
    as [(T & ->)|[(T & G & ->)|(c & h & T & G & ->)]];
    destruct (iteration_cases exec2 n answer)
      as [(T' & ->)|[(T' & G' & ->)|(c' & h' & T' & G' & ->)]];
    try reflexivity; try congruence;
      try (destruct G as [G|G]; congruence);
      try (destruct G' as [G'|G']; congruence).
  rewrite G in G'. injection G' as <- <-.
  unfold getWhoisData, getWhoisRaw. rewrite (H c h G). reflexivity.
Qed.

(** X12: a session depends on the lookup only through the command
    [whois <hostname>] run for the answers that have a non-empty normal
    form: no command is run for a blank answer or for one reported as
    invalid, and the answer alone decides the command. *)
Theorem session_runs_whois_on_valid_answers_only exec1 exec2 answers :
  (forall n answer c h,
      nth_error answers n = Some answer ->
      getCleanHostname URL_hostname (trim answer) = Some (c :: h) ->
      exec1 n (lit "whois " ++ c :: h) = exec2 n (lit "whois " ++ c :: h)) ->
  main URL_hostname Date_parse exec1 answers
  = main URL_hostname Date_parse exec2 answers.
Proof.
  assert (forall answers k,
             (forall n answer c h,
                 nth_error answers n = Some answer ->
                 getCleanHostname URL_hostname (trim answer) = Some (c :: h) ->
                 exec1 (k + n)%nat (lit "whois " ++ c :: h)
                 = exec2 (k + n)%nat (lit "whois " ++ c :: h)) ->
             main_loop URL_hostname Date_parse exec1 k answers
             = main_loop URL_hostname Date_parse exec2 k answers) as Hgen.
  { clear. intros answers. induction answers as [|a answers IH]; intros k H;
      cbn [main_loop]; [reflexivity|].
    rewrite (iteration_lookup exec1 exec2 k a).
    - rewrite (IH (S k)); [reflexivity|].
      intros n answer c h Hn G.
      replace (S k + n)%nat with (k + S n)%nat by lia.
      exact (H (S n) answer c h Hn G).
    - intros c h G. specialize (H 0%nat a c h eq_refl G).
      rewrite Nat.add_0_r in H. exact H. }
  intros H. unfold main. apply Hgen. exact H.
Qed.

End Session.

Lemma nothing_after_exit_witness :
  main Platform.hostname Platform.Date_parse whois_always_US
    ([lit "example.com"] ++ lit "  " :: [lit "example.org"; lit "x"])
  = main Platform.hostname Platform.Date_parse whois_always_US
      ([lit "example.com"] ++ [lit "  "]).
Proof.
  apply (proj1 (nothing_after_exit Platform.hostname Platform.Date_parse
                  whois_always_US)).
  reflexivity.
Defined.

Lemma session_runs_whois_on_valid_answers_only_witness :
  main Platform.hostname Platform.Date_parse whois_always_US
    [lit "not a url"; lit "www."; lit ""]
  = main Platform.hostname Platform.Date_parse
      (fun _ _ => {| exec_error := Some (lit "spawn whois ENOENT");
                     exec_stdout := [] |})
      [lit "not a url"; lit "www."; lit ""].
Proof.
  apply session_runs_whois_on_valid_answers_only.
  intros n answer c h Hn.
  destruct n as [|[|[|n]]]; cbn in Hn;
    [injection Hn as <-; intros G; vm_compute in G; discriminate G ..
    |destruct n; discriminate Hn].
Defined.

(** ** Texts put together *)

Lemma fold_scan_from
    (g : fields jsstring -> option jsstring) (f : jsstring -> option jsstring) :
  (forall st line, g (scan_line st line) = assigned (f line) (g st)) ->
  g unset = None ->
  forall lines st,
    g (fold_left scan_line lines st)
    = assigned (g (fold_left scan_line lines unset)) (g st).
Proof.
  intros Hg H0 lines. induction lines as [|l lines IH] using rev_ind; intros st.
  - cbn. rewrite H0. reflexivity.
  - rewrite !fold_left_app. cbn [fold_left]. rewrite !Hg, IH.
    destruct (f l); cbn; [reflexivity|].
    destruct (g (fold_left scan_line lines unset)); reflexivity.
Qed.

(** X16: parsing two texts one after the other, separated by a newline,
    is parsing each and letting the second decide every variable it sets:
    the first text counts only for what the second leaves unset. *)
Theorem scan_of_two_texts (first second : jsstring) :
  scan (first ++ newline :: second)
  = {| registrantCountry :=
         assigned (registrantCountry (scan second)) (registrantCountry (scan first));
       creationDate :=
         assigned (creationDate (scan second)) (creationDate (scan first));
       updatedDate :=
         assigned (updatedDate (scan second)) (updatedDate (scan first));
       expiryDate :=
         assigned (expiryDate (scan second)) (expiryDate (scan first)) |}.
Proof.
  unfold scan, lines_of. rewrite split_app, map_app, fold_left_app.
  set (st := fold_left scan_line (map trim (split newline first)) unset).
  set (ls := map trim (split newline second)).
  rewrite <- (fold_scan_from _ _ scan_country eq_refl ls st),
    <- (fold_scan_from _ _ scan_creation eq_refl ls st),
    <- (fold_scan_from _ _ scan_updated eq_refl ls st),
    <- (fold_scan_from _ _ scan_expiry eq_refl ls st).
  destruct (fold_left scan_line ls st); reflexivity.
Qed.

(** X17: the date of a field is decided by the last line that holds one for
    it, also when [Date] cannot convert that date: the field is then
    absent, whatever valid date an earlier line held. *)
Theorem unconvertible_last_date_hides_earlier_ones
    (Date_parse : jsstring -> option Z) (raw line s : jsstring) :
  ~ In newline line ->
  extractDate (trim line) = Some s ->
  Date_parse s = None ->
  (creation_label (trim line) = true ->
   creationDate (parseWhoisOutput Date_parse (raw ++ newline :: line)) = None)
  /\ (updated_label (trim line) = true ->
      updatedDate (parseWhoisOutput Date_parse (raw ++ newline :: line)) = None)
  /\ (expiry_label (trim line) = true ->
      expiryDate (parseWhoisOutput Date_parse (raw ++ newline :: line)) = None).
Proof.
  intros Hn Hs Hd. unfold parseWhoisOutput. rewrite (scan_app _ _ Hn).
  rewrite scan_line_assigned. cbn.
  unfold creation_value, updated_value, expiry_value.
  assert (toDate Date_parse (Some s) = None) as Ht.
  { unfold toDate. destruct s; [reflexivity|exact Hd]. }
  repeat split; intros ->; rewrite Hs; exact Ht.
Qed.

Lemma unconvertible_last_date_hides_earlier_ones_witness :
  creationDate
    (parseWhoisOutput Platform.Date_parse
       (lit "Creation Date: 1997-09-15"
        ++ newline :: lit "Creation Date: 2021-13-40")) = None.
Proof.
  refine (proj1 (unconvertible_last_date_hides_earlier_ones
                   Platform.Date_parse (lit "Creation Date: 1997-09-15")
                   (lit "Creation Date: 2021-13-40") (lit "2021-13-40")
                   _ eq_refl eq_refl) eq_refl).
  cbv. intuition discriminate.
Defined.

(** ** The empty hostname *)

Lemma startsWith_prefix p s :
  startsWith p s = true -> s = p ++ skipn (List.length p) s.
Proof.
  revert s. induction p as [|a p IH]; intros s; cbn; [reflexivity|].
  destruct s as [|b s]; [discriminate|]. intros H.
  apply andb_prop in H as [E H]. apply N.eqb_eq in E. subst b.
  rewrite <- (IH _ H). reflexivity.
Qed.

Lemma strip_www_empty l :
  (if startsWith (lit "www.") l then substring 4 l else l) = []
  <-> l = [] \/ l = lit "www.".
Proof.
  destruct (startsWith (lit "www.") l) eqn:W.
  - split.
    + intros E. right. rewrite (startsWith_prefix _ _ W).
      change (skipn (List.length (lit "www.")) l) with (substring 4 l).
      rewrite E. reflexivity.
    + intros [-> | ->]; [discriminate W|reflexivity].
  - split; [auto|]. intros [-> | ->]; [reflexivity|discriminate W].
Qed.

(** X15: [getCleanHostname] returns the empty string exactly when the
    lower-cased host that [URL] reports is ["www."] (or is empty); the loop
    then reports the answer as invalid and runs no lookup. *)
Theorem bare_www_is_reported_invalid
    (URL_hostname : jsstring -> option jsstring)
    (Date_parse : jsstring -> option Z)
    (child_exec : nat -> jsstring -> exec_result) (input : jsstring) :
  (getCleanHostname URL_hostname input = Some []
   <-> input <> []
       /\ exists host,
            URL_hostname (if test scheme (trim input) then trim input
                          else lit "http://" ++ trim input) = Some host
            /\ (toLowerCase host = [] \/ toLowerCase host = lit "www."))
  /\ (forall n answer,
         trim answer <> [] ->
         getCleanHostname URL_hostname (trim answer) = Some [] ->
         iteration URL_hostname Date_parse child_exec n answer
         = (AwaitingInput, [InvalidURL])).
Proof.
  split.
  - unfold getCleanHostname. destruct input as [|x input].
    + cbn. split; [discriminate|]. intros (H & _). congruence.
    + cbn [truthy negb]. cbv zeta.
      replace (if negb (test scheme (trim (x :: input)))
               then lit "http://" ++ trim (x :: input)
               else trim (x :: input))
        with (if test scheme (trim (x :: input)) then trim (x :: input)
              else lit "http://" ++ trim (x :: input))
        by (destruct (test scheme (trim (x :: input))); reflexivity).
      destruct (URL_hostname _) as [host|].
      * split.
        -- intros [= E]. split; [discriminate|]. exists host.
           split; [reflexivity|]. apply strip_www_empty, E.
        -- intros (_ & h & [= <-] & E). f_equal. apply strip_www_empty, E.
      * split; [discriminate|]. intros (_ & h & H & _). discriminate.
  - intros n answer T G.
    destruct (iteration_cases URL_hostname Date_parse child_exec n answer)
      as [(T' & _)|[(_ & _ & E)|(c & h & _ & G' & _)]];
      [congruence|exact E|congruence].
Qed.

Lemma bare_www_is_reported_invalid_witness :
  iteration Platform.hostname Platform.Date_parse whois_always_US 0 (lit " WWW. ")
  = (AwaitingInput, [InvalidURL]).
Proof.
  apply (proj2 (bare_www_is_reported_invalid Platform.hostname
                  Platform.Date_parse whois_always_US [])).
  - discriminate.
  - reflexivity.
Defined.

(** ** The examples of the normaliser *)

Lemma scheme_any_case p rest :
  same_up_to_case p (lit "http://") \/ same_up_to_case p (lit "https://") ->
  test scheme (p ++ rest) = true.
Proof.
  intros H. rewrite <- (test_canonicalize scheme (p ++ rest) eq_refl), map_app.
  unfold same_up_to_case in H. destruct H as [-> | ->]; reflexivity.
Qed.

Lemma scheme_lower_case p rest :
  toLowerCase p = lit "http://" \/ toLowerCase p = lit "https://" ->
  test scheme (p ++ rest) = true.
Proof.
  intros H. apply scheme_any_case.
  pose proof (toLowerCase_same_up_to_case p) as E. unfold same_up_to_case in *.
  destruct H as [H|H]; rewrite H in E; [left|right]; symmetry; exact E.
Qed.

Lemma getCleanHostname_unfolded URL_hostname input :
  input <> [] ->
  getCleanHostname URL_hostname input
  = option_map lower_without_www
      (URL_hostname (if test scheme (trim input) then trim input
                     else lit "http://" ++ trim input)).
Proof.
  intros H. unfold getCleanHostname. destruct input as [|c input];
    [congruence|]. cbn [truthy negb]. cbv zeta.
  destruct (test scheme (trim (c :: input))); cbn [negb];
    destruct (URL_hostname _); reflexivity.
Qed.

Section URL_examples.

Variable URL_hostname : jsstring -> option jsstring.

(** What [URL] reports for the four texts of the examples. *)
Hypothesis URL_with_path :
  URL_hostname (lit "https://WWW.Example.com/path") = Some (lit "www.example.com").
Hypothesis URL_upper_case_scheme :
  URL_hostname (lit "HTTPS://WWW.Example.com/path") = Some (lit "www.example.com").
Hypothesis URL_bare :
  URL_hostname (lit "http://example.com") = Some (lit "example.com").
Hypothesis URL_rejects_space :
  URL_hostname (lit "http://not a url") = None.

(** C2: ["https://WWW.Example.com/path"] normalises to ["example.com"],
    ["example.com"] to itself and ["not a url"] to [null].  The scheme is
    recognised in any letter case: a text that begins with a case variant
    of ["http://"] or ["https://"] passes the scheme test and goes to [URL]
    as it is, so ["HTTPS://WWW.Example.com/path"] normalises to
    ["example.com"] too, and any other text gets ["http://"] in front.  The
    result is the host reported by [URL], lower-cased and without one
    leading ["www."], and is [null] whenever [URL] rejects the text. *)
Theorem getCleanHostname_examples :
  getCleanHostname URL_hostname (lit "https://WWW.Example.com/path")
  = Some (lit "example.com")
  /\ getCleanHostname URL_hostname (lit "example.com") = Some (lit "example.com")
  /\ getCleanHostname URL_hostname (lit "not a url") = None
  /\ getCleanHostname URL_hostname (lit "HTTPS://WWW.Example.com/path")
     = Some (lit "example.com")
  /\ (forall p rest,
         toLowerCase p = lit "http://" \/ toLowerCase p = lit "https://" ->
         test scheme (p ++ rest) = true)
  /\ (forall input,
         input <> [] -> test scheme (trim input) = true ->
         getCleanHostname URL_hostname input
         = option_map lower_without_www (URL_hostname (trim input)))
  /\ (forall input,
         input <> [] -> test scheme (trim input) = false ->
         getCleanHostname URL_hostname input
         = option_map lower_without_www
             (URL_hostname (lit "http://" ++ trim input)))
  /\ (forall input,
         URL_hostname (if test scheme (trim input) then trim input
                       else lit "http://" ++ trim input) = None ->
         getCleanHostname URL_hostname input = None).
Proof.
  split; [|split; [|split; [|split; [|split; [|split; [|split]]]]]].
  - rewrite getCleanHostname_unfolded by discriminate.
    replace (URL_hostname _)
      with (URL_hostname (lit "https://WWW.Example.com/path"))
      by reflexivity.
    rewrite URL_with_path. reflexivity.
  - rewrite getCleanHostname_unfolded by discriminate.
    replace (URL_hostname _) with (URL_hostname (lit "http://example.com"))
      by reflexivity.
    rewrite URL_bare. reflexivity.
  - rewrite getCleanHostname_unfolded by discriminate.
    replace (URL_hostname _) with (URL_hostname (lit "http://not a url"))
      by reflexivity.
    rewrite URL_rejects_space. reflexivity.
  - rewrite getCleanHostname_unfolded by discriminate.
    replace (URL_hostname _)
      with (URL_hostname (lit "HTTPS://WWW.Example.com/path"))
      by reflexivity.
    rewrite URL_upper_case_scheme. reflexivity.
  - exact scheme_lower_case.
  - intros input Hne T. rewrite (getCleanHostname_unfolded _ _ Hne), T.
    reflexivity.
  - intros input Hne T. rewrite (getCleanHostname_unfolded _ _ Hne), T.
    reflexivity.
  - intros input H. destruct input as [|c input]; [reflexivity|].
    rewrite getCleanHostname_unfolded by discriminate. rewrite H. reflexivity.
Qed.

End URL_examples.

Lemma getCleanHostname_examples_witness :
  getCleanHostname Platform.hostname (lit "https://WWW.Example.com/path")
  = Some (lit "example.com")
  /\ getCleanHostname Platform.hostname (lit "example.com")
     = Some (lit "example.com")
  /\ getCleanHostname Platform.hostname (lit "not a url") = None
  /\ getCleanHostname Platform.hostname (lit "HTTPS://WWW.Example.com/path")
     = Some (lit "example.com")
  /\ test scheme (lit "hTtP://" ++ lit "Example.com") = true.
Proof.
  destruct (getCleanHostname_examples Platform.hostname
              eq_refl eq_refl eq_refl eq_refl)
    as (H1 & H2 & H3 & H4 & H5 & _).
  refine (conj H1 (conj H2 (conj H3 (conj H4 (H5 _ _ _))))).
  left. reflexivity.
Defined.
